(** * U-FinDI: the review and upload pages as functional models

    The repository is a React front end.  Two components carry behaviour:
    the [Reviewer] page (a list of extracted fields that can be corrected by
    hand, colour-coded by confidence, next to a list of validation checks)
    and the [Upload] page (a list of documents whose [status] is driven
    through its stages by timers).  Each component is embedded as the state
    it keeps with [useState] and the functions that update or render it. *)

From Stdlib Require Import List String Ascii Bool ZArith NArith QArith Qround Lia.
From Stdlib Require Import DecimalString DecimalN DecimalPos Sorted.
From Stdlib Require Import Lqa.
Import ListNotations.
Open Scope string_scope.

(** ** JavaScript values used by both pages *)

(** A JS [number] that is finite is a rational; the comparisons of the source
    ([>=], [>], [<]) are exact on such values.  A decimal literal such as
    [98.2] stands for the rational it writes: the double next to it compares
    the same way with 75, 90 and 70. *)
Definition number := Q.

Definition geq (a b : number) : bool := Qle_bool b a.
Definition gt (a b : number) : bool := negb (Qle_bool a b).
Definition lt (a b : number) : bool := negb (Qle_bool b a).

(** An optional string property ([corrected?: string]): [None] is
    [undefined].  In a boolean position [undefined] and the empty string are
    both falsy. *)
Definition truthy (o : option string) : bool :=
  match o with
  | None => false
  | Some s => negb (s =? "")
  end.

(** [a || b] for an optional string [a] and a string [b]. *)
Definition or_else (a : option string) (b : string) : string :=
  match a with
  | Some s => if truthy a then s else b
  | None => b
  end.

(** ** The Reviewer page *)

Module Reviewer.

Record Field := mkField {
  key : string;
  label : string;
  value : string;
  confidence : number;
  corrected : option string
}.

Definition initialFields : list Field := [
  mkField "account_holder" "Account Holder" "Rajesh Kumar Sharma" (982 # 10) None;
  mkField "bank_name" "Bank Name" "HDFC Bank Ltd." (991 # 10) None;
  mkField "account_number" "Account Number" "XXXX XXXX 4521" (967 # 10) None;
  mkField "ifsc" "IFSC Code" "HDFC0001234" (978 # 10) None;
  mkField "statement_period" "Statement Period" "01 Jan 2025 – 31 Jan 2025" (953 # 10) None;
  mkField "opening_balance" "Opening Balance" "₹1,24,567.89" (934 # 10) None;
  mkField "closing_balance" "Closing Balance" "₹1,87,234.56" (912 # 10) None;
  mkField "total_credits" "Total Credits" "₹3,45,000.00" (887 # 10) None;
  mkField "total_debits" "Total Debits" "₹2,82,333.33" (879 # 10) None;
  mkField "salary_credit" "Salary Credit" "₹85,000.00" (724 # 10) None;
  mkField "employer" "Employer Name" "Infosys Technologies Ltd" (683 # 10) None
].

Record Transaction := mkTransaction {
  date : string;
  desc : string;
  credit : string;
  debit : string;
  balance : string
}.

Definition transactions : list Transaction := [
  mkTransaction "02 Jan" "NEFT-INFOSYS TECH" "₹85,000" "" "₹2,09,567.89";
  mkTransaction "05 Jan" "UPI/SWIGGY" "" "₹456.00" "₹2,09,111.89";
  mkTransaction "10 Jan" "EMI-HDFC HOME LOAN" "" "₹32,500.00" "₹1,76,611.89";
  mkTransaction "15 Jan" "UPI/AMAZON" "" "₹2,340.00" "₹1,74,271.89";
  mkTransaction "20 Jan" "NEFT-DIVIDEND" "₹12,962.67" "" "₹1,87,234.56"
].

(** The component state: one [useState] cell per record field. *)
Record State := mkState {
  fields : list Field;
  editingKey : option string;
  editValue : string;
  saved : bool;
  showTransactions : bool
}.

Definition initialState : State := mkState initialFields None "" false true.

Definition setCorrected (f : Field) (c : option string) : Field :=
  mkField (key f) (label f) (value f) (confidence f) c.

(** [startEdit]: the input starts from [field.corrected || field.value]. *)
Definition startEdit (field : Field) (st : State) : State :=
  mkState (fields st) (Some (key field)) (or_else (corrected field) (value field))
          (saved st) (showTransactions st).

(** The input's [onChange]. *)
Definition setEditValue (v : string) (st : State) : State :=
  mkState (fields st) (editingKey st) v (saved st) (showTransactions st).

(** The function given to [prev.map] by [saveEdit]. *)
Definition saveField (k editValue : string) (f : Field) : Field :=
  if key f =? k
  then setCorrected f (if negb (editValue =? value f) then Some editValue else None)
  else f.

(** [saveEdit]; the three-second timer only resets the [saved] banner, see
    [savedTimeout]. *)
Definition saveEdit (k : string) (st : State) : State :=
  mkState (map (saveField k (editValue st)) (fields st)) None (editValue st)
          true (showTransactions st).

Definition savedTimeout (st : State) : State :=
  mkState (fields st) (editingKey st) (editValue st) false (showTransactions st).

Definition confidenceColor (c : number) : string :=
  if geq c 90 then "text-success"
  else if geq c 75 then "text-warning"
  else "text-destructive".

Definition confidenceBg (c : number) : string :=
  if geq c 90 then "bg-success/10"
  else if geq c 75 then "bg-warning/10"
  else "bg-destructive/10".

(** What a field's row shows: the [AlertTriangle] next to the confidence,
    the value paragraph, and the "corrected" tag. *)
Definition attentionFlag (field : Field) : bool := lt (confidence field) 75.

Definition shownValue (field : Field) : string :=
  or_else (corrected field) (value field).

Definition correctedTag (field : Field) : bool := truthy (corrected field).

(** The header names the document under review (next to a fixed "High
    Confidence" banner). *)
Definition documentName : string := "HDFC_Statement_Jan2025.pdf".

(** The validation section: its header button toggles [showTransactions],
    and while that is set the section renders a literal list of checks; no
    field and no transaction enters it.  Collapsed, it renders none. *)
Record Check := mkCheck { check : string; pass : bool }.

Definition toggleChecks (st : State) : State :=
  mkState (fields st) (editingKey st) (editValue st) (saved st)
          (negb (showTransactions st)).

Definition validationChecks (st : State) : list Check :=
  if showTransactions st
  then [
    mkCheck "Balance continuity verified" true;
    mkCheck "Date sequencing valid" true;
    mkCheck "Salary matches employer pattern" false;
    mkCheck "Cross-document consistency" true
  ]
  else [].

Definition checkPasses (name : string) (st : State) : bool :=
  existsb (fun v => (check v =? name) && pass v) (validationChecks st).

(** A review session: each entry is an edit typed into the field with the
    given key and saved. *)
Definition applyEdits (edits : list (string * string)) (st : State) : State :=
  fold_left (fun s e => saveEdit (fst e) (setEditValue (snd e) s)) edits st.

(** *** The reconciliation rule of the specification

    The page computes no check.  To compare its fixed result with the rule
    "opening plus the sum of the signed amounts equals closing", the rule is
    written here on exact amounts in paise, and the amounts are read off the
    page's strings: digits count, a point starts the two decimals, the
    currency sign and the grouping commas are skipped. *)
Definition balance_continuity (opening closing : Z) (amounts : list Z) : bool :=
  (opening + fold_right Z.add 0 amounts =? closing)%Z.

Definition digit_of (c : ascii) : option Z :=
  let n := nat_of_ascii c in
  if ((48 <=? n) && (n <=? 57))%nat then Some (Z.of_nat (n - 48)) else None.

(** Digits read so far, and how many of them came after the point. *)
Fixpoint read_digits (s : string) (acc : Z) (decimals : option nat)
  : Z * option nat :=
  match s with
  | EmptyString => (acc, decimals)
  | String c rest =>
      match digit_of c with
      | Some d => read_digits rest (10 * acc + d) (option_map S decimals)
      | None =>
          if Ascii.eqb c "." then read_digits rest acc (Some 0%nat)
          else read_digits rest acc decimals
      end
  end.

Definition paise (s : string) : Z :=
  match read_digits s 0 None with
  | (n, None) => n * 100
  | (n, Some 0%nat) => n * 100
  | (n, Some 1%nat) => n * 10
  | (n, Some _) => n
  end.

Definition amount (t : Transaction) : Z := paise (credit t) - paise (debit t).

Definition balanceOf (k : string) (st : State) : Z :=
  match find (fun f => key f =? k) (fields st) with
  | Some f => paise (shownValue f)
  | None => 0
  end.

Definition reconciles (st : State) : bool :=
  balance_continuity (balanceOf "opening_balance" st)
                     (balanceOf "closing_balance" st)
                     (map amount transactions).

End Reviewer.

(** ** The Upload page *)

Module Upload.

Inductive Status :=
  | uploading | classifying | extracting | validating | done | review.

Definition Status_eqb (a b : Status) : bool :=
  match a, b with
  | uploading, uploading | classifying, classifying | extracting, extracting
  | validating, validating | done, done | review, review => true
  | _, _ => false
  end.

Record DocFile := mkDoc {
  id : string;
  name : string;
  status : Status;
  type : option string;
  confidence : option number
}.

Definition mockDocs : list DocFile := [
  mkDoc "1" "HDFC_Statement_Jan2025.pdf" done (Some "Bank Statement") (Some (973 # 10));
  mkDoc "2" "Payslip_Dec2024.pdf" done (Some "Payslip") (Some (948 # 10));
  mkDoc "3" "Settlement_Letter.pdf" review (Some "Settlement Letter") (Some (721 # 10))
].

Definition stages : list Status := [classifying; extracting; validating; done].
Definition types : list string := ["Bank Statement"; "Invoice"; "Payslip"; "Agreement"].

(** [Date.now().toString()]: the clock is a count of milliseconds. *)
Definition toString (n : N) : string := NilZero.string_of_uint (N.to_uint n).

(** [s.slice(-6)]: the last six characters, or all of a shorter string. *)
Definition slice_last6 (s : string) : string :=
  substring (String.length s - 6) 6 s.

(** The confidence tag of a row of the file list: rendered only for a truthy
    [file.confidence] ([undefined] and [0] are falsy). *)
Definition confidenceTag (c : option number) : option string :=
  match c with
  | None => None
  | Some q =>
      if Qeq_bool q 0 then None
      else Some (if gt q 90 then "bg-success/10 text-success"
                 else "bg-warning/10 text-warning")
  end.

Definition isProcessing (s : Status) : bool :=
  match s with
  | uploading | classifying | extracting | validating => true
  | done | review => false
  end.

(** A pending [setTimeout]: when it is due, and the [id], [stage] and [i]
    its callback closes over. *)
Record Timer := mkTimer {
  due : N;
  cb_id : string;
  cb_stage : Status;
  cb_i : nat
}.

(** Timers fire in order of their due time, and in order of registration
    when due together: the queue is kept in firing order. *)
Fixpoint setTimeout (t : Timer) (q : list Timer) : list Timer :=
  match q with
  | [] => [t]
  | u :: q' => if (due u <=? due t)%N then u :: setTimeout t q' else t :: u :: q'
  end.

(** [stages.forEach((stage, i) => setTimeout(..., (i + 1) * 1200))]. *)
Fixpoint forEachStage (id0 : string) (now : N) (l : list Status) (i : nat)
         (q : list Timer) : list Timer :=
  match l with
  | [] => q
  | stage :: rest =>
      forEachStage id0 now rest (S i)
        (setTimeout (mkTimer (now + N.of_nat (S i) * 1200) id0 stage i) q)
  end.

(** The page state: the [files] cell, the pending timers, the clock, and how
    many values [Math.random] has handed out.  One clock of milliseconds
    serves both [Date.now()] and the timer queue; it moves forward only (see
    [elapse]). *)
Record State := mkState {
  files : list DocFile;
  timers : list Timer;
  clock : N;
  drawn : nat
}.

Definition simulateUpload (nm : string) (st : State) : State :=
  let id0 := toString (clock st) in
  let newFile := mkDoc id0 nm uploading None None in
  mkState (newFile :: files st)
          (forEachStage id0 (clock st) stages 0 (timers st))
          (clock st) (drawn st).

(** Time passing: the clock moves forward by [ms]. *)
Definition elapse (ms : N) (st : State) : State :=
  mkState (files st) (timers st) (clock st + ms) (drawn st).

(** [handleDrop]: one [simulateUpload] per dropped file, first to last.
    Each call reads [Date.now()] for itself, so a dropped file comes with
    the milliseconds that passed since the reading before it (since the
    drop, for the first file); no timer runs inside the handler. *)
Definition handleDrop (dropped : list (N * string)) (st : State) : State :=
  fold_left (fun s f => simulateUpload (snd f) (elapse (fst f) s)) dropped st.

(** Files whose uploads all fall into the millisecond of the drop. *)
Definition at_once (names : list string) : list (N * string) :=
  map (fun nm => (0%N, nm)) names.

(** The upload zone's [onClick]: the name is built from one reading of
    [Date.now()], the id from the next one, taken inside [simulateUpload]
    [ms] milliseconds later. *)
Definition clickUpload (ms : N) (st : State) : State :=
  simulateUpload ("Document_" ++ slice_last6 (toString (clock st)) ++ ".pdf")
                 (elapse ms st).

(** The [X] button of a row. *)
Definition removeFile (id0 : string) (st : State) : State :=
  mkState (filter (fun f => negb (id f =? id0)) (files st))
          (timers st) (clock st) (drawn st).

Section Random.

(** The values [Math.random()] returns, in the order of the calls. *)
Variable random : nat -> number.

(** Computations that draw random values: the count of draws is threaded. *)
Definition Rand (A : Type) : Type := nat -> A * nat.

Definition ret {A} (a : A) : Rand A := fun n => (a, n).
Definition bind {A B} (m : Rand A) (k : A -> Rand B) : Rand B :=
  fun n => let (a, n') := m n in k a n'.
Definition mathRandom : Rand number := fun n => (random n, S n).

Notation "x <- m ;; k" := (bind m (fun x => k))
  (at level 61, m at next level, right associativity).

Fixpoint mapM {A B} (g : A -> Rand B) (l : list A) : Rand (list B) :=
  match l with
  | [] => ret []
  | a :: l' => b <- g a ;; bs <- mapM g l' ;; ret (b :: bs)
  end.

(** [types[Math.floor(r * types.length)]]: [undefined] out of range. *)
Definition pickType (r : number) : option string :=
  let k := Qfloor (r * 4) in
  if (k <? 0)%Z then None else nth_error types (Z.to_nat k).

(** The function a timer's callback maps over [prev].  The object literal
    draws for [type] first and for [confidence] second; [85 + r * 14] is
    taken exactly, where the source rounds to a double. *)
Definition stageFile (id0 : string) (stage : Status) (i : nat) (f : DocFile)
  : Rand DocFile :=
  if id f =? id0
  then
    ty <- (if (1 <=? i)%nat then r <- mathRandom ;; ret (pickType r)
           else ret None) ;;
    cf <- (if Status_eqb stage done
           then r <- mathRandom ;; ret (Some (85 + r * 14))
           else ret None) ;;
    ret (mkDoc (id f) (name f) stage ty cf)
  else ret f.

Definition runCallback (t : Timer) (st : State) : State :=
  let (fs, n) := mapM (stageFile (cb_id t) (cb_stage t) (cb_i t)) (files st) (drawn st) in
  mkState fs (timers st) (clock st) n.

(** The event loop runs the first pending timer once it is due. *)
Definition timerFires (st : State) : State :=
  match timers st with
  | [] => st
  | t :: q =>
      if (due t <=? clock st)%N
      then runCallback t (mkState (files st) q (clock st) (drawn st))
      else st
  end.

(** What can happen to the page. *)
Inductive Event :=
  | Drop (dropped : list (N * string))
  | Click (ms : N)
  | Remove (id0 : string)
  | TimerFires
  | Elapse (ms : N).

Definition step (st : State) (e : Event) : State :=
  match e with
  | Drop dropped => handleDrop dropped st
  | Click ms => clickUpload ms st
  | Remove id0 => removeFile id0 st
  | TimerFires => timerFires st
  | Elapse ms => elapse ms st
  end.

Definition run (evs : list Event) (st : State) : State := fold_left step evs st.

(** The page as mounted when the clock reads [now].  The rows it starts with
    have the ids 1, 2 and 3; a clock reading is far beyond them, which the
    theorems ask for as [3 < now]. *)
Definition mount (now : N) : State := mkState mockDocs [] now 0.

End Random.

(** A random source for the examples: every draw is one half. *)
Definition halves : nat -> number := fun _ => 1 # 2.

(** What a timer's callback does to one row. *)
Definition touched (t : Timer) (f f' : DocFile) : Prop :=
  if id f =? cb_id t
  then id f' = id f /\ name f' = name f /\ status f' = cb_stage t
       /\ (Status_eqb (cb_stage t) done = false -> confidence f' = None)
  else f' = f.

(** Events that neither add nor remove rows. *)
Definition quiet (e : Event) : Prop :=
  match e with TimerFires | Elapse _ => True | _ => False end.

(** *** The transition table of the status field *)

(** The position of a status in the pipeline. *)
Definition rank (s : Status) : nat :=
  match s with
  | uploading => 0 | classifying => 1 | extracting => 2
  | validating => 3 | done => 4 | review => 5
  end.

(** The stage that follows a status in [stages], if any. *)
Definition advance (s : Status) : option Status :=
  match s with
  | uploading => Some classifying
  | classifying => Some extracting
  | extracting => Some validating
  | validating => Some done
  | done | review => None
  end.


(** How one event may change the file list: uploads put new rows in front,
    all in [uploading]; a removal filters rows out; otherwise every row
    keeps its place, [id] and [name], and its status is related by [R]. *)
Definition files_change (R : Status -> Status -> Prop) (st : State) (e : Event)
           (after : list DocFile) : Prop :=
  match e with
  | Drop _ | Click _ =>
      exists fresh, after = (fresh ++ files st)%list
                    /\ Forall (fun f => status f = uploading) fresh
  | Remove id0 => after = filter (fun f => negb (id f =? id0)) (files st)
  | TimerFires | Elapse _ =>
      Forall2 (fun f f' => id f' = id f /\ name f' = name f
                           /\ R (status f) (status f'))
              (files st) after
  end.

(** *** The invariant that ties the pending timers to the rows

    Every pending timer was set by an upload at some clock reading [c] not
    after now; a row created at [c] that has reached rank [r] still has its
    timers for all later stages pending, and none for a stage before [r]. *)
Definition timer_of (c : N) (j : nat) (stage : Status) : Timer :=
  mkTimer (c + N.of_nat (S j) * 1200) (toString c) stage j.

Record Inv (c0 : N) (st : State) : Prop := mkInv {
  inv_clock : (c0 <= clock st)%N;
  inv_sorted : StronglySorted (fun a b => (due a <= due b)%N) (timers st);
  inv_timers :
    Forall (fun t => exists c, (c0 <= c <= clock st)%N
                               /\ nth_error stages (cb_i t) = Some (cb_stage t)
                               /\ t = timer_of c (cb_i t) (cb_stage t))
           (timers st);
  inv_files :
    forall f c, In f (files st) -> id f = toString c -> (c0 <= c)%N ->
      (c <= clock st)%N
      /\ ((1 <= rank (status f))%nat -> (c + 1200 <= clock st)%N)
      /\ (rank (status f) <= 4)%nat
      /\ (forall j stage, (rank (status f) <= j)%nat ->
                          nth_error stages j = Some stage ->
                          In (timer_of c j stage) (timers st));
  inv_upper :
    forall f t, In f (files st) -> In t (timers st) -> cb_id t = id f ->
      (rank (status f) <= S (cb_i t))%nat;
  inv_conf :
    forall f, In f (files st) -> isProcessing (status f) = true ->
      confidence f = None;
  inv_origin :
    forall f, In f (files st) -> isProcessing (status f) = true ->
      exists c, (c0 <= c)%N /\ id f = toString c
}.

(** *** What a row of the file list renders *)

(** The status values are the strings of the union type. *)
Definition statusName (s : Status) : string :=
  match s with
  | uploading => "uploading" | classifying => "classifying"
  | extracting => "extracting" | validating => "validating"
  | done => "done" | review => "review"
  end.

(** [statusLabels]: label and colour by status name. *)
Definition statusLabels : list (string * (string * string)) := [
  ("uploading", ("Uploading", "text-muted-foreground"));
  ("classifying", ("Classifying", "text-warning"));
  ("extracting", ("Extracting", "text-warning"));
  ("validating", ("Validating", "text-warning"));
  ("done", ("Validated", "text-success"));
  ("review", ("Needs Review", "text-warning"))
].

(** [obj[k]]: [None] is [undefined]. *)
Fixpoint lookup {V} (k : string) (obj : list (string * V)) : option V :=
  match obj with
  | [] => None
  | (k', v) :: rest => if k' =? k then Some v else lookup k rest
  end.

Definition statusInfo (file : DocFile) : option (string * string) :=
  lookup (statusName (status file)) statusLabels.

(** The three icons next to the label. *)
Definition showClock (file : DocFile) : bool := isProcessing (status file).
Definition showCheck (file : DocFile) : bool := Status_eqb (status file) done.
Definition showAlert (file : DocFile) : bool := Status_eqb (status file) review.

(** The width of the progress bar, in percent; the bar is rendered for a
    row that [isProcessing] only. *)
Definition progressWidth (s : Status) : N :=
  if Status_eqb s classifying then 30
  else if Status_eqb s extracting then 60
  else if Status_eqb s validating then 85
  else 10.

Definition progressBar (file : DocFile) : option N :=
  if isProcessing (status file) then Some (progressWidth (status file)) else None.

(** The first pending timer, if it is due: the one [timerFires] runs. *)
Definition nextTimer (st : State) : option Timer :=
  match timers st with
  | [] => None
  | t :: _ => if (due t <=? clock st)%N then Some t else None
  end.

(** The rows of a drop, first file first, when the clock reads [c] as the
    drop begins: each file's id is the reading of its own upload. *)
Fixpoint dropRows (c : N) (dropped : list (N * string)) : list DocFile :=
  match dropped with
  | [] => []
  | f :: rest =>
      mkDoc (toString (c + fst f)) (snd f) uploading None None
      :: dropRows (c + fst f) rest
  end.

(** What a timer's callback makes of a row, given the draws it used. *)
Definition stamped (random : nat -> number) (t : Timer) (f f' : DocFile) : Prop :=
  if id f =? cb_id t
  then exists n1 n2,
      f' = mkDoc (id f) (name f) (cb_stage t)
                 (if (1 <=? cb_i t)%nat then pickType (random n1) else None)
                 (if Status_eqb (cb_stage t) done
                  then Some (85 + random n2 * 14) else None)
  else f' = f.

(** *** Further invariants of the runs *)

(** What a row holds at each status once the draws lie in [0, 1). *)
Definition row_data_ok (f : DocFile) : Prop :=
  match status f with
  | uploading | classifying => type f = None /\ confidence f = None
  | extracting | validating =>
      (exists ty, type f = Some ty /\ In ty types) /\ confidence f = None
  | done =>
      (exists ty, type f = Some ty /\ In ty types)
      /\ exists c, confidence f = Some c /\ 85 <= c /\ c <= 99
  | review => True
  end.

(** Rows that share an id share their status, and a row uploaded at [c] has
    spent 1200 ms per stage it has passed. *)
Record Sync (c0 : N) (st : State) : Prop := mkSync {
  sync_status :
    forall f g, In f (files st) -> In g (files st) -> id f = id g ->
      status f = status g;
  sync_time :
    forall f c, In f (files st) -> id f = toString c -> (c0 <= c)%N ->
      (c + 1200 * N.of_nat (rank (status f)) <= clock st)%N
}.

End Upload.

(** ** The navigation bar *)

Module Navbar.

Record NavItem := mkNavItem { label : string; path : string }.

Definition navItems : list NavItem := [
  mkNavItem "Product" "/product";
  mkNavItem "Upload" "/upload";
  mkNavItem "Reviewer" "/reviewer";
  mkNavItem "Dashboard" "/dashboard";
  mkNavItem "Architecture" "/architecture"
].

(** [location.pathname === item.path], the test of both menus. *)
Definition isActive (pathname : string) (item : NavItem) : bool :=
  pathname =? path item.

Definition desktopClass (pathname : string) (item : NavItem) : string :=
  if isActive pathname item then "text-primary bg-primary/10"
  else "text-muted-foreground hover:text-foreground hover:bg-secondary".

Definition mobileClass (pathname : string) (item : NavItem) : string :=
  if isActive pathname item then "text-primary bg-primary/10"
  else "text-muted-foreground hover:text-foreground".

(** The [mobileOpen] cell: the menu button toggles it, a link of the mobile
    menu closes it. *)
Definition toggleMenu (mobileOpen : bool) : bool := negb mobileOpen.
Definition clickLink (mobileOpen : bool) : bool := false.

End Navbar.

(** ** The Dashboard page *)

Module Dashboard.

Record Metric := mkMetric {
  label : string;
  value : string;
  change : string;
  up : bool
}.

Definition metrics : list Metric := [
  mkMetric "Documents Processed" "12,847" "+18%" true;
  mkMetric "Extraction Accuracy" "99.2%" "+2.1%" true;
  mkMetric "Validation Failures" "127" "-34%" false;
  mkMetric "Avg Processing Time" "2.3s" "-0.8s" false
].

(** The colour of a card's change figure. *)
Definition changeColor (m : Metric) : string :=
  if (up m && negb (label m =? "Validation Failures"))
     || (negb (up m) && (label m =? "Validation Failures"))
     || (negb (up m) && (label m =? "Avg Processing Time"))
  then "text-success"
  else "text-destructive".

(** The class of the trend arrow. *)
Definition arrowClass (m : Metric) : string :=
  if negb (up m) then "rotate-180" else "".

(** The height of an accuracy bar, in pixels: [(d.accuracy - 88) * 8]. *)
Definition barHeight (accuracy : number) : number := (accuracy - 88) * 8.

End Dashboard.

(** ** Lists rendered with arrows between their items

    The layers and the flow nodes of the Architecture page, the workflow of
    the landing page and the stages of the product page are all rendered by
    [l.map((x, i) => ...)] with an arrow under the guard
    [i < l.length - 1]. *)

Module Arrows.

Fixpoint mapi_from {A B} (g : A -> nat -> B) (i : nat) (l : list A) : list B :=
  match l with
  | [] => []
  | a :: rest => g a i :: mapi_from g (S i) rest
  end.

(** Each item with whether an arrow follows it. *)
Definition withArrows {A} (l : list A) : list (A * bool) :=
  mapi_from (fun a i => (a, (Z.of_nat i <? Z.of_nat (List.length l) - 1)%Z)) 0 l.

End Arrows.

(** * Properties of the Reviewer page *)

Module ReviewerFacts.
Import Reviewer.

(** *** Saving an edit, field by field *)

Lemma saveEdit_fields k st :
  fields (saveEdit k st) = map (saveField k (editValue st)) (fields st).
Proof. reflexivity. Qed.

Lemma Forall2_map_r {A B} (R : A -> B -> Prop) (g : A -> B) l :
  (forall a, R a (g a)) -> Forall2 R l (map g l).
Proof. intros H. induction l; simpl; constructor; auto. Qed.

Lemma saveField_hit k ev f :
  key f = k ->
  saveField k ev f = setCorrected f (if ev =? value f then None else Some ev).
Proof.
  intros Hk. unfold saveField. rewrite Hk, String.eqb_refl.
  now destruct (ev =? value f).
Qed.

Lemma saveField_miss k ev f : key f <> k -> saveField k ev f = f.
Proof.
  intros Hk. unfold saveField. apply String.eqb_neq in Hk. now rewrite Hk.
Qed.

Lemma saveField_history k ev f :
  value (saveField k ev f) = value f
  /\ confidence (saveField k ev f) = confidence f.
Proof. unfold saveField. destruct (key f =? k); split; reflexivity. Qed.

Lemma applyEdits_history edits st :
  map value (fields (applyEdits edits st)) = map value (fields st)
  /\ map confidence (fields (applyEdits edits st)) = map confidence (fields st).
Proof.
  unfold applyEdits. revert st.
  induction edits as [|[k ev] edits IH]; simpl; intros st; [now split|].
  destruct (IH (saveEdit k (setEditValue ev st))) as [Hv Hc].
  rewrite Hv, Hc. simpl. rewrite !map_map. split; apply map_ext; intros f.
  - apply saveField_history.
  - apply saveField_history.
Qed.

(** *** The correction claims *)

(** C3. Saving an edit for key [k] keeps every field's extracted value and
    confidence; in the fields of key [k] it sets [corrected] to the edit
    (to nothing when the edit equals the extracted value) and nowhere else
    does it touch [corrected].  Over a whole session of saved edits the
    extracted values and confidences stay what they were. *)
Theorem correction_keeps_history (k ev : string) (edits : list (string * string))
        (st : State) :
  Forall2 (fun f f' =>
             value f' = value f /\ confidence f' = confidence f
             /\ corrected f' = if key f =? k
                               then (if ev =? value f then None else Some ev)
                               else corrected f)
          (fields st) (fields (saveEdit k (setEditValue ev st)))
  /\ map value (fields (applyEdits edits st)) = map value (fields st)
  /\ map confidence (fields (applyEdits edits st)) = map confidence (fields st).
Proof.
  split; [|apply applyEdits_history].
  rewrite saveEdit_fields. apply Forall2_map_r. intros f. simpl.
  unfold saveField. destruct (key f =? k); simpl; auto.
  now destruct (ev =? value f).
Qed.

(** C4, as stated, fails: after the closing balance is corrected by one
    paisa the amounts no longer reconcile, and the page, its validation
    section open as it is from the start, still shows the balance check as
    passed; the rule itself fails on the specification's own failing
    example. *)
Lemma balance_check_ignores_amounts :
  let st := saveEdit "closing_balance"
                     (setEditValue "₹1,87,234.57" initialState) in
  reconciles st = false
  /\ checkPasses "Balance continuity verified" st = true
  /\ balance_continuity 10000 15000 [8500; -3000]%Z = false.
Proof. repeat split; vm_compute; reflexivity. Qed.

Lemma applyEdits_showTransactions edits st :
  showTransactions (applyEdits edits st) = showTransactions st.
Proof.
  unfold applyEdits. revert st.
  induction edits as [|e edits IH]; simpl; intros st; [reflexivity|].
  now rewrite IH.
Qed.

(** C4, amended. While the validation section is open the balance check the
    page shows is a fixed pass (collapsed, the page shows no check); saved
    edits never change it, whatever they do to the balances.  On the sample
    statement as extracted the amounts do reconcile exactly (opening plus
    the signed amounts equals closing, in paise), so there the fixed result
    agrees with the rule. *)
Theorem balance_check_is_fixed (st : State) (edits : list (string * string)) :
  checkPasses "Balance continuity verified" st = showTransactions st
  /\ checkPasses "Balance continuity verified" (applyEdits edits st)
     = checkPasses "Balance continuity verified" st
  /\ checkPasses "Balance continuity verified" (toggleChecks st)
     = negb (checkPasses "Balance continuity verified" st)
  /\ reconciles initialState = true
  /\ (balanceOf "opening_balance" initialState
      + fold_right Z.add 0 (map amount transactions)
      = balanceOf "closing_balance" initialState)%Z.
Proof.
  assert (H : forall s, checkPasses "Balance continuity verified" s
                        = showTransactions s).
  { intros s. unfold checkPasses, validationChecks.
    destruct (showTransactions s); reflexivity. }
  split; [apply H|]. split; [|split].
  - now rewrite !H, applyEdits_showTransactions.
  - rewrite !H. reflexivity.
  - split; vm_compute; reflexivity.
Qed.

(** C7. Saving an edit equal to the field's extracted value leaves the
    field with no correction: [corrected] is cleared, the row shows the
    extracted value and carries no "corrected" tag. *)
Theorem identical_edit_clears_correction (st : State) (k : string) (i : nat)
        (f : Field) :
  nth_error (fields st) i = Some f -> key f = k ->
  let f' := setCorrected f None in
  nth_error (fields (saveEdit k (setEditValue (value f) st))) i = Some f'
  /\ corrected f' = None /\ correctedTag f' = false
  /\ shownValue f' = value f.
Proof.
  intros Hi Hk f'. split; [|repeat split; reflexivity].
  rewrite saveEdit_fields. simpl. rewrite nth_error_map, Hi. simpl.
  rewrite (saveField_hit k (value f) f Hk), String.eqb_refl. reflexivity.
Qed.

Lemma identical_edit_clears_correction_witness :
  let f := mkField "employer" "Employer Name" "Infosys Technologies Ltd"
                   (683 # 10) (Some "Infosys Ltd") in
  let st := saveEdit "employer" (setEditValue "Infosys Ltd" initialState) in
  nth_error (fields st) 10 = Some f /\ key f = "employer" /\
  let f' := setCorrected f None in
  nth_error (fields (saveEdit "employer" (setEditValue (value f) st))) 10 = Some f'
  /\ corrected f' = None /\ correctedTag f' = false
  /\ shownValue f' = value f.
Proof.
  intros f st. split; [reflexivity|]. split; [reflexivity|].
  apply (identical_edit_clears_correction st "employer" 10 f); reflexivity.
Defined.

(** C9. A field that is uncorrected, then corrected to some value [v], then
    edited back to its extracted value, is exactly the field it was: the
    first save records [v] as the correction (when [v] differs from the
    extracted value), the second one clears it, because each save compares
    the edit with the extracted value, whatever correction the field carried
    before. *)
Theorem edit_back_restores_field (st : State) (k v : string) (i : nat)
        (f : Field) :
  nth_error (fields st) i = Some f -> key f = k -> corrected f = None ->
  let st1 := saveEdit k (setEditValue v (startEdit f st)) in
  let f1 := saveField k v f in
  let st2 := saveEdit k (setEditValue (value f) (startEdit f1 st1)) in
  nth_error (fields st1) i = Some f1
  /\ corrected f1 = (if v =? value f then None else Some v)
  /\ value f1 = value f
  /\ nth_error (fields st2) i = Some f
  /\ forall c ev, saveField k ev (setCorrected f c) = saveField k ev f.
Proof.
  intros Hi Hk Hc st1 f1 st2.
  assert (H1 : nth_error (fields st1) i = Some f1).
  { unfold st1. rewrite saveEdit_fields. simpl. now rewrite nth_error_map, Hi. }
  split; [exact H1|]. split; [|split; [|split]].
  - unfold f1. rewrite (saveField_hit k v f Hk). reflexivity.
  - unfold f1. rewrite (saveField_hit k v f Hk). reflexivity.
  - unfold st2. rewrite saveEdit_fields. simpl.
    change (map (saveField k v) (fields st)) with (fields st1).
    rewrite nth_error_map, H1. simpl. f_equal. unfold f1.
    rewrite (saveField_hit k v f Hk).
    rewrite saveField_hit by exact Hk. simpl. rewrite String.eqb_refl.
    destruct f; simpl in *. now subst.
  - intros c ev. rewrite !saveField_hit by exact Hk. reflexivity.
Qed.

Lemma edit_back_restores_field_witness :
  let f := mkField "employer" "Employer Name" "Infosys Technologies Ltd"
                   (683 # 10) None in
  nth_error (fields initialState) 10 = Some f /\ key f = "employer"
  /\ corrected f = None /\
  let st1 := saveEdit "employer" (setEditValue "Infosys Ltd" (startEdit f initialState)) in
  let f1 := saveField "employer" "Infosys Ltd" f in
  let st2 := saveEdit "employer" (setEditValue (value f) (startEdit f1 st1)) in
  nth_error (fields st1) 10 = Some f1
  /\ corrected f1 = Some "Infosys Ltd"
  /\ value f1 = value f
  /\ nth_error (fields st2) 10 = Some f
  /\ forall c ev, saveField "employer" ev (setCorrected f c) = saveField "employer" ev f.
Proof.
  intros f. split; [reflexivity|]. split; [reflexivity|]. split; [reflexivity|].
  apply (edit_back_restores_field initialState "employer" "Infosys Ltd" 10 f);
    reflexivity.
Defined.

(** C10. Saving an edit for key [k] leaves every field of another key as it
    was, and in a field of key [k] leaves the key, label, extracted value
    and confidence as they were: only [corrected] can differ. *)
Theorem saveEdit_frame (k ev : string) (st : State) :
  Forall2 (fun f f' =>
             if key f =? k
             then key f' = key f /\ label f' = label f
                  /\ value f' = value f /\ confidence f' = confidence f
             else f' = f)
          (fields st) (fields (saveEdit k (setEditValue ev st))).
Proof.
  rewrite saveEdit_fields. apply Forall2_map_r. intros f.
  unfold saveField. destruct (key f =? k); simpl; auto.
Qed.


(** *** Reading a confidence *)

Lemma geq_true (c t : number) : geq c t = true <-> t <= c.
Proof. unfold geq. apply Qle_bool_iff. Qed.

Lemma geq_false (c t : number) : geq c t = false <-> c < t.
Proof.
  unfold geq. split; intros H.
  - apply Qnot_le_lt. intros Hle. apply Qle_bool_iff in Hle. congruence.
  - destruct (Qle_bool t c) eqn:E; [|reflexivity].
    apply Qle_bool_iff in E. exfalso. exact (Qlt_not_le _ _ H E).
Qed.

Lemma lt_true (a b : number) : lt a b = true <-> a < b.
Proof. unfold lt. rewrite negb_true_iff. apply geq_false. Qed.

Lemma gt_true (a b : number) : gt a b = true <-> b < a.
Proof. unfold gt. rewrite negb_true_iff. apply (geq_false b a). Qed.

Lemma gt_false (a b : number) : gt a b = false <-> a <= b.
Proof. unfold gt. rewrite negb_false_iff. apply (geq_true b a). Qed.

(** The three tiers as a case split on the two comparisons. *)
Lemma tier_cases (c : number) :
  (90 <= c /\ geq c 90 = true)
  \/ (75 <= c /\ c < 90 /\ geq c 90 = false /\ geq c 75 = true)
  \/ (c < 75 /\ geq c 90 = false /\ geq c 75 = false).
Proof.
  destruct (geq c 90) eqn:E90.
  - left. split; [now apply geq_true|reflexivity].
  - right. apply geq_false in E90. destruct (geq c 75) eqn:E75.
    + left. apply geq_true in E75. auto.
    + right. apply geq_false in E75. auto.
Qed.

Ltac tier_contradiction :=
  match goal with
  | H : ?a <= ?c, H' : ?c < ?b |- _ =>
      exfalso; apply (Qlt_irrefl a);
      apply (Qle_lt_trans _ _ _ H); apply (Qlt_trans _ _ _ H'); reflexivity
  | H : ?a <= ?c, H' : ?c < ?a |- _ =>
      exfalso; exact (Qlt_not_le _ _ H' H)
  end.

(** C6, as stated, fails: 89.5 is shown as medium though it is above 89; and
    the upload list reads the same numbers otherwise: 90 is high for the
    reviewer and not for the upload list, 72.1 is low for the reviewer and
    carries the upload list's warning tag. *)
Lemma confidence_tiers_counterexample :
  (0 <= 895 # 10 /\ 895 # 10 <= 100
   /\ confidenceColor (895 # 10) = "text-warning" /\ ~ (895 # 10 <= 89))
  /\ (confidenceColor 90 = "text-success"
      /\ Upload.confidenceTag (Some 90) = Some "bg-warning/10 text-warning")
  /\ (confidenceColor (721 # 10) = "text-destructive"
      /\ Upload.confidenceTag (Some (721 # 10)) = Some "bg-warning/10 text-warning").
Proof.
  repeat split; try reflexivity; try discriminate.
  intros H. apply Qle_bool_iff in H. discriminate.
Qed.

(** C6, amended. The reviewer reads a field's confidence [c] as high exactly
    when [c >= 90], as medium exactly when [75 <= c < 90], and as low exactly
    when [c < 75]; colour and background agree on the tier and the attention
    flag is shown exactly for low.  The upload list does not use these
    tiers: its tag is the success one exactly when [c > 90], the warning one
    for every other non-zero [c], and absent for zero. *)
Theorem confidence_tiers (c : number) :
  ((confidenceColor c = "text-success" <-> 90 <= c)
   /\ (confidenceColor c = "text-warning" <-> 75 <= c /\ c < 90)
   /\ (confidenceColor c = "text-destructive" <-> c < 75))
  /\ ((confidenceBg c = "bg-success/10" <-> 90 <= c)
      /\ (confidenceBg c = "bg-warning/10" <-> 75 <= c /\ c < 90)
      /\ (confidenceBg c = "bg-destructive/10" <-> c < 75))
  /\ (forall k l v cor, attentionFlag (mkField k l v c cor) = true <-> c < 75)
  /\ ((Upload.confidenceTag (Some c) = Some "bg-success/10 text-success" <-> 90 < c)
      /\ (Upload.confidenceTag (Some c) = Some "bg-warning/10 text-warning"
          <-> c <= 90 /\ ~ c == 0)
      /\ (Upload.confidenceTag (Some c) = None <-> c == 0)).
Proof.
  split; [|split; [|split]].
  - unfold confidenceColor.
    destruct (tier_cases c) as [[H E]|[(H & H' & E & E')|(H & E & E')]];
      rewrite E, ?E'; repeat split; intros; auto; try discriminate;
      try tauto; try tier_contradiction;
      match goal with H : _ /\ _ |- _ => destruct H end; tier_contradiction.
  - unfold confidenceBg.
    destruct (tier_cases c) as [[H E]|[(H & H' & E & E')|(H & E & E')]];
      rewrite E, ?E'; repeat split; intros; auto; try discriminate;
      try tauto; try tier_contradiction;
      match goal with H : _ /\ _ |- _ => destruct H end; tier_contradiction.
  - intros k l v cor. unfold attentionFlag. simpl. apply lt_true.
  - unfold Upload.confidenceTag.
    destruct (Qeq_bool c 0) eqn:E0.
    + apply Qeq_bool_iff in E0. repeat split; intros; auto; try discriminate.
      * exfalso. rewrite E0 in H. discriminate.
      * tauto.
    + assert (N0 : ~ c == 0).
      { intros H. apply Qeq_bool_iff in H. congruence. }
      destruct (gt c 90) eqn:E.
      * apply gt_true in E. repeat split; intros; auto; try discriminate.
        -- destruct H as [H _]. exfalso. exact (Qlt_not_le _ _ E H).
        -- contradiction.
      * apply gt_false in E. repeat split; intros; auto; try discriminate.
        -- exfalso. exact (Qlt_not_le _ _ H E).
        -- contradiction.
Qed.

(** *** The value a row works with *)

(** C8. The page misses the property at the empty correction: after the
    input of the employer field is cleared and saved, a correction is
    present (the empty string, which [saveEdit] stores), yet the row shows
    the extracted value, carries no "corrected" tag, and the next edit
    starts from the extracted value. *)
Lemma empty_correction_is_not_shown :
  let st := saveEdit "employer" (setEditValue "" initialState) in
  exists f, nth_error (fields st) 10 = Some f
            /\ corrected f = Some ""
            /\ shownValue f = "Infosys Technologies Ltd"
            /\ shownValue f <> ""
            /\ correctedTag f = false
            /\ editValue (startEdit f st) = "Infosys Technologies Ltd".
Proof.
  eexists. split; [reflexivity|]. repeat split. discriminate.
Qed.

(** What the page does case by case: the value a row shows and the value
    an edit starts from are the correction when it is not empty, and the
    extracted value when there is none or an empty one; the "corrected" tag
    is shown in the first case only. *)
Lemma shown_value_by_cases (f : Field) (st : State) :
  editValue (startEdit f st) = shownValue f
  /\ editingKey (startEdit f st) = Some (key f)
  /\ match corrected f with
     | Some s =>
         if s =? ""
         then shownValue f = value f /\ correctedTag f = false
         else shownValue f = s /\ correctedTag f = true
     | None => shownValue f = value f /\ correctedTag f = false
     end.
Proof.
  split; [reflexivity|]. split; [reflexivity|].
  unfold shownValue, correctedTag, or_else, truthy.
  destruct (corrected f) as [s|]; [|now split].
  destruct (s =? ""); now split.
Qed.

End ReviewerFacts.

(** * Properties of the Upload page *)

Module UploadFacts.
Import Upload.
Local Close Scope Q_scope.

Lemma toString_inj (a b : N) : toString a = toString b -> a = b.
Proof.
  unfold toString. intros H.
  assert (NN : forall n, N.to_uint n <> Decimal.Nil).
  { intros [|p]; simpl; [discriminate | apply Unsigned.to_uint_nonnil]. }
  apply (f_equal NilZero.uint_of_string) in H.
  rewrite !NilZero.usu in H by apply NN.
  injection H as H. apply (f_equal N.of_uint) in H.
  now rewrite !DecimalN.Unsigned.of_to in H.
Qed.

Lemma stage_rank i s : nth_error stages i = Some s -> rank s = S i /\ i < 4.
Proof.
  unfold stages. intros H.
  do 4 (destruct i as [|i]; [injection H as <-; simpl; lia|]).
  destruct i; discriminate.
Qed.

Lemma rank_inj a b : rank a = rank b -> a = b.
Proof. destruct a, b; simpl; congruence. Qed.

Lemma timer_of_inj c c' j j' s s' :
  timer_of c j s = timer_of c' j' s' -> c = c' /\ j = j' /\ s = s'.
Proof.
  unfold timer_of. intros H. injection H as _ Hc Hs Hj.
  apply toString_inj in Hc. auto.
Qed.

(** The queue. *)
Lemma setTimeout_In t q u : In u (setTimeout t q) <-> u = t \/ In u q.
Proof.
  induction q as [|v q IH]; simpl.
  - intuition.
  - destruct (due v <=? due t)%N; simpl; rewrite ?IH; intuition.
Qed.

Lemma setTimeout_sorted t q :
  StronglySorted (fun a b => (due a <= due b)%N) q ->
  StronglySorted (fun a b => (due a <= due b)%N) (setTimeout t q).
Proof.
  induction 1 as [|v q Hs IH Hv]; simpl.
  - repeat constructor.
  - destruct (due v <=? due t)%N eqn:E.
    + apply N.leb_le in E. constructor; [exact IH|].
      apply Forall_forall. intros u Hu. apply setTimeout_In in Hu.
      destruct Hu as [->|Hu]; [exact E|].
      rewrite Forall_forall in Hv. now apply Hv.
    + apply N.leb_gt in E. constructor.
      * now constructor.
      * constructor; [lia|]. eapply Forall_impl; [|exact Hv].
        simpl. intros; lia.
Qed.

Lemma simulateUpload_timers nm st :
  timers (simulateUpload nm st) =
  setTimeout (timer_of (clock st) 3 done)
    (setTimeout (timer_of (clock st) 2 validating)
      (setTimeout (timer_of (clock st) 1 extracting)
        (setTimeout (timer_of (clock st) 0 classifying) (timers st)))).
Proof. reflexivity. Qed.

Lemma simulateUpload_timers_In nm st u :
  In u (timers (simulateUpload nm st)) <->
  In u (timers st) \/
  exists j s, nth_error stages j = Some s /\ u = timer_of (clock st) j s.
Proof.
  rewrite simulateUpload_timers, !setTimeout_In. split.
  - intros [->|[->|[->|[->|H]]]]; auto; right.
    + now exists 3, done.
    + now exists 2, validating.
    + now exists 1, extracting.
    + now exists 0, classifying.
  - intros [H|(j & s & Hj & ->)]; [tauto|].
    unfold stages in Hj.
    do 4 (destruct j as [|j]; [injection Hj as <-; tauto|]).
    destruct j; discriminate.
Qed.


Section Random.
Variable random : nat -> number.

Lemma mapM_Forall2 {A B} (R : A -> B -> Prop) (g : A -> Rand B) :
  (forall a n, R a (fst (g a n))) ->
  forall l n, Forall2 R l (fst (mapM g l n)).
Proof.
  intros Hg. induction l as [|a l IH]; intros n; simpl.
  - constructor.
  - unfold bind. specialize (Hg a n). destruct (g a n) as [b n1].
    specialize (IH n1). destruct (mapM g l n1) as [bs n2]. simpl in *.
    now constructor.
Qed.

Lemma stageFile_touched t f n :
  touched t f (fst (stageFile random (cb_id t) (cb_stage t) (cb_i t) f n)).
Proof.
  unfold touched, stageFile, bind, ret, mathRandom.
  destruct (id f =? cb_id t); [|reflexivity].
  destruct (1 <=? cb_i t)%nat; destruct (Status_eqb (cb_stage t) done);
    simpl; repeat split; congruence.
Qed.

Lemma runCallback_files t st :
  Forall2 (touched t) (files st) (files (runCallback random t st)).
Proof.
  unfold runCallback.
  pose proof (mapM_Forall2 (touched t) _ (stageFile_touched t) (files st) (drawn st)) as H.
  destruct (mapM _ (files st) (drawn st)) as [fs n]. exact H.
Qed.

Lemma runCallback_rest t st :
  timers (runCallback random t st) = timers st
  /\ clock (runCallback random t st) = clock st.
Proof.
  unfold runCallback. destruct (mapM _ (files st) (drawn st)). now split.
Qed.

End Random.

Lemma Forall2_In_r {A B} (R : A -> B -> Prop) l l' y :
  Forall2 R l l' -> In y l' -> exists x, In x l /\ R x y.
Proof.
  induction 1 as [|a b l l' Hab _ IH]; simpl; [tauto|].
  intros [<-|Hy]; [exists a; auto|].
  destruct (IH Hy) as (x & Hx & HR). exists x; auto.
Qed.

Lemma Forall2_In_impl {A B} (R S : A -> B -> Prop) l l' :
  Forall2 R l l' ->
  (forall x y, In x l -> In y l' -> R x y -> S x y) -> Forall2 S l l'.
Proof.
  induction 1 as [|a b l l' Hab _ IH]; intros HS; constructor.
  - apply HS; simpl; auto.
  - apply IH. intros x y Hx Hy. apply HS; simpl; auto.
Qed.

Lemma Forall2_compose {A} (R S T : A -> A -> Prop) l1 l2 l3 :
  (forall a b c, R a b -> S b c -> T a c) ->
  Forall2 R l1 l2 -> Forall2 S l2 l3 -> Forall2 T l1 l3.
Proof.
  intros HT H. revert l3.
  induction H as [|a b l1 l2 Hab _ IH]; intros l3 H23;
    inversion H23; subst; constructor; eauto.
Qed.

(** *** The invariant holds at mount and is kept by every event *)

Lemma Inv_mount now : (3 < now)%N -> Inv now (mount now).
Proof.
  intros Hnow. constructor; simpl.
  - lia.
  - constructor.
  - constructor.
  - intros f c [<-|[<-|[<-|[]]]] Hid Hc; simpl in Hid;
      [change "1" with (toString 1) in Hid
      |change "2" with (toString 2) in Hid
      |change "3" with (toString 3) in Hid];
      apply toString_inj in Hid; lia.
  - tauto.
  - intros f [<-|[<-|[<-|[]]]]; simpl; congruence.
  - intros f [<-|[<-|[<-|[]]]]; simpl; congruence.
Qed.

Lemma Inv_simulateUpload c0 nm st : Inv c0 st -> Inv c0 (simulateUpload nm st).
Proof.
  intros [Hclk Hsort Htim Hfil Hupp Hconf Horg]. constructor.
  - exact Hclk.
  - rewrite simulateUpload_timers. now repeat apply setTimeout_sorted.
  - apply Forall_forall. intros t Ht.
    apply simulateUpload_timers_In in Ht. destruct Ht as [Ht|(j & s & Hj & ->)].
    + rewrite Forall_forall in Htim. exact (Htim t Ht).
    + exists (clock st). simpl. repeat split; auto; lia.
  - intros f c Hf Hid Hc. simpl in Hf. destruct Hf as [<-|Hf].
    + simpl in Hid. apply toString_inj in Hid. subst c.
      change (clock (simulateUpload nm st)) with (clock st). cbn [status rank].
      repeat split; try lia.
      intros j s _ Hj. apply simulateUpload_timers_In. right. eauto.
    + destruct (Hfil f c Hf Hid Hc) as (H1 & H2 & H3 & H4).
      repeat split; auto.
      intros j s Hr Hj. apply simulateUpload_timers_In. left. eauto.
  - intros f t Hf Ht Hid. simpl in Hf. destruct Hf as [<-|Hf]; [simpl; lia|].
    apply simulateUpload_timers_In in Ht. destruct Ht as [Ht|(j & s & Hj & ->)].
    + eauto.
    + simpl in Hid. symmetry in Hid.
      destruct (Hfil f (clock st) Hf Hid Hclk) as (_ & H2 & _).
      simpl. destruct (rank (status f)); [lia|]. assert (1 <= S n) by lia.
      specialize (H2 H). lia.
  - intros f [<-|Hf]; simpl; auto.
  - intros f [<-|Hf]; simpl; auto. intros _. exists (clock st). auto.
Qed.

Lemma Inv_elapse c0 ms st : Inv c0 st -> Inv c0 (elapse ms st).
Proof.
  intros [Hclk Hsort Htim Hfil Hupp Hconf Horg]. constructor; simpl; auto.
  - lia.
  - eapply Forall_impl; [|exact Htim]. simpl.
    intros t (c & Hc & H). exists c. split; [lia|exact H].
  - intros f c Hf Hid Hc. destruct (Hfil f c Hf Hid Hc) as (H1 & H2 & H3 & H4).
    repeat split; auto; lia.
Qed.

Lemma Inv_handleDrop c0 dropped st : Inv c0 st -> Inv c0 (handleDrop dropped st).
Proof.
  unfold handleDrop. revert st.
  induction dropped as [|f l IH]; simpl; intros st H; [exact H|].
  apply IH. now apply Inv_simulateUpload, Inv_elapse.
Qed.

Lemma Inv_removeFile c0 id0 st : Inv c0 st -> Inv c0 (removeFile id0 st).
Proof.
  intros [Hclk Hsort Htim Hfil Hupp Hconf Horg].
  constructor; simpl; auto; intros f; intros;
    match goal with
    | H : In _ (filter _ _) |- _ => apply filter_In in H; destruct H as [H _]
    end; eauto.
Qed.


Section Steps.
Variable random : nat -> number.

(** The first pending timer is the earliest: a row it touches has reached
    the stage before the timer's, or that stage already. *)
Lemma head_timer_rank c0 st t q f :
  Inv c0 st -> timers st = t :: q -> In f (files st) -> id f = cb_id t ->
  rank (status f) = cb_i t \/ rank (status f) = S (cb_i t).
Proof.
  intros [Hclk Hsort Htim Hfil Hupp Hconf Horg] Hq Hf Hid.
  rewrite Hq in *.
  assert (Hu : rank (status f) <= S (cb_i t)).
  { apply Hupp; simpl; auto. }
  destruct (Nat.lt_ge_cases (rank (status f)) (cb_i t)) as [Hlt|Hge]; [|lia].
  exfalso.
  inversion Htim as [|? ? (c & Hc & Hst & Ht) _]; subst.
  destruct (stage_rank _ _ Hst) as [_ Hi].
  assert (Hidc : id f = toString c) by (rewrite Hid, Ht; reflexivity).
  destruct (Hfil f c Hf Hidc (proj1 Hc)) as (_ & _ & _ & Hpend).
  assert (exists s, nth_error stages (rank (status f)) = Some s) as [s Hs].
  { destruct (nth_error stages (rank (status f))) eqn:E; eauto.
    apply nth_error_None in E. simpl in E. lia. }
  specialize (Hpend _ _ (Nat.le_refl _) Hs).
  destruct Hpend as [Heq|Hin].
  - rewrite Ht in Heq. apply timer_of_inj in Heq. lia.
  - apply StronglySorted_inv in Hsort. destruct Hsort as [_ Hall].
    rewrite Forall_forall in Hall. specialize (Hall _ Hin).
    rewrite Ht in Hall. simpl in Hall. lia.
Qed.

Lemma Inv_timerFires c0 st : Inv c0 st -> Inv c0 (timerFires random st).
Proof.
  intros HI. unfold timerFires.
  destruct (timers st) as [|t q] eqn:Hq; [exact HI|].
  destruct (due t <=? clock st)%N eqn:Hdue; [|exact HI].
  apply N.leb_le in Hdue.
  set (st1 := mkState (files st) q (clock st) (drawn st)).
  pose proof (runCallback_files random t st1) as HF.
  destruct (runCallback_rest random t st1) as [Ht Hc].
  pose proof (fun f => head_timer_rank c0 st t q f HI Hq) as Hrank.
  destruct HI as [Hclk Hsort Htim Hfil Hupp Hconf Horg]. rewrite Hq in *.
  apply StronglySorted_inv in Hsort. destruct Hsort as [Hsort Hmin].
  inversion Htim as [|? ? (c1 & Hc1 & Hst1 & Ht1) Htim']; subst.
  destruct (stage_rank _ _ Hst1) as [Hr1 Hi1].
  constructor; rewrite ?Ht, ?Hc; simpl; auto.
  - (* rows and their pending timers *)
    intros f' c Hf' Hid' Hcc.
    destruct (Forall2_In_r _ _ _ _ HF Hf') as (f & Hf & Htch).
    simpl in Hf. unfold touched in Htch.
    destruct (id f =? cb_id t) eqn:E.
    + apply String.eqb_eq in E. destruct Htch as (Hi & _ & Hs & _).
      rewrite Hi in Hid'.
      destruct (Hfil f c Hf Hid' Hcc) as (H1 & H2 & H3 & H4).
      assert (c = c1).
      { apply toString_inj. rewrite <- Hid', E, Ht1. reflexivity. }
      subst c1. rewrite Hs, Hr1.
      assert (Hd : due t = (c + N.of_nat (S (cb_i t)) * 1200)%N)
        by (rewrite Ht1; reflexivity).
      repeat split; try lia.
      intros j s Hj Hjs.
      assert (Hin : In (timer_of c j s) (t :: q)).
      { apply H4; [|exact Hjs]. destruct (Hrank f Hf E); lia. }
      destruct Hin as [Heq|Hin]; [|exact Hin].
      assert (Heq' : timer_of c (cb_i t) (cb_stage t) = timer_of c j s)
        by (rewrite <- Ht1; exact Heq).
      apply timer_of_inj in Heq'. lia.
    + subst f'. apply String.eqb_neq in E.
      destruct (Hfil f c Hf Hid' Hcc) as (H1 & H2 & H3 & H4).
      repeat split; auto.
      intros j s Hj Hjs. destruct (H4 j s Hj Hjs) as [Heq|Hin]; [|exact Hin].
      exfalso. apply E. rewrite Hid', Heq. reflexivity.
  - (* no pending timer is for a stage a row has passed *)
    intros f' u Hf' Hu Hid'.
    destruct (Forall2_In_r _ _ _ _ HF Hf') as (f & Hf & Htch).
    simpl in Hf. unfold touched in Htch.
    destruct (id f =? cb_id t) eqn:E.
    + apply String.eqb_eq in E. destruct Htch as (Hi & _ & Hs & _).
      rewrite Hs, Hr1.
      rewrite Forall_forall in Hmin, Htim'.
      specialize (Hmin u Hu). destruct (Htim' u Hu) as (c & _ & _ & Hu').
      assert (c = c1).
      { apply toString_inj.
        transitivity (cb_id u); [rewrite Hu'; reflexivity|].
        rewrite Hid', Hi, E, Ht1. reflexivity. }
      subst c. rewrite Hu', Ht1 in Hmin. simpl in Hmin. lia.
    + subst f'. apply Hupp; simpl; auto.
  - (* rows still in the pipeline carry no confidence *)
    intros f' Hf' Hp.
    destruct (Forall2_In_r _ _ _ _ HF Hf') as (f & Hf & Htch).
    simpl in Hf. unfold touched in Htch.
    destruct (id f =? cb_id t).
    + destruct Htch as (_ & _ & Hs & Hcf). apply Hcf.
      rewrite Hs in Hp. now destruct (cb_stage t).
    + subst f'. auto.
  - (* rows in the pipeline were uploaded after mount *)
    intros f' Hf' Hp.
    destruct (Forall2_In_r _ _ _ _ HF Hf') as (f & Hf & Htch).
    simpl in Hf. unfold touched in Htch.
    destruct (id f =? cb_id t) eqn:E.
    + apply String.eqb_eq in E. destruct Htch as (Hi & _).
      exists c1. split; [lia|]. rewrite Hi, E, Ht1. reflexivity.
    + subst f'. auto.
Qed.

Lemma Inv_step c0 st e : Inv c0 st -> Inv c0 (step random st e).
Proof.
  destruct e; simpl.
  - apply Inv_handleDrop.
  - intros H. now apply Inv_simulateUpload, Inv_elapse.
  - apply Inv_removeFile.
  - apply Inv_timerFires.
  - apply Inv_elapse.
Qed.

Lemma Inv_run_from c0 evs st : Inv c0 st -> Inv c0 (run random evs st).
Proof.
  unfold run. revert st.
  induction evs as [|e evs IH]; simpl; intros st H; [exact H|].
  apply IH. now apply Inv_step.
Qed.

Lemma Inv_run now evs : (3 < now)%N -> Inv now (run random evs (mount now)).
Proof. intros Hnow. apply Inv_run_from. now apply Inv_mount. Qed.


(** *** What one event does to the rows *)

Lemma handleDrop_files dropped st :
  exists fresh, files (handleDrop dropped st) = (fresh ++ files st)%list
                /\ Forall (fun f => status f = uploading) fresh.
Proof.
  unfold handleDrop. revert st.
  induction dropped as [|f l IH]; simpl; intros st.
  - exists []. split; [reflexivity|constructor].
  - destruct (IH (simulateUpload (snd f) (elapse (fst f) st)))
      as (fresh & Hf & Hall).
    exists (fresh ++ [mkDoc (toString (clock st + fst f)) (snd f)
                            uploading None None])%list.
    split.
    + rewrite Hf. simpl. now rewrite <- app_assoc.
    + apply Forall_app. split; [exact Hall|]. now repeat constructor.
Qed.

Lemma timerFires_files c0 st :
  Inv c0 st ->
  Forall2 (fun f f' => id f' = id f /\ name f' = name f
                       /\ (status f' = status f
                           \/ advance (status f) = Some (status f')))
          (files st) (files (timerFires random st)).
Proof.
  intros HI.
  assert (Hsame : Forall2 (fun f f' => id f' = id f /\ name f' = name f
                       /\ (status f' = status f
                           \/ advance (status f) = Some (status f')))
                    (files st) (files st)).
  { induction (files st); constructor; auto. }
  unfold timerFires.
  destruct (timers st) as [|t q] eqn:Hq; [exact Hsame|].
  destruct (due t <=? clock st)%N; [|exact Hsame].
  set (st1 := mkState (files st) q (clock st) (drawn st)).
  pose proof (runCallback_files random t st1) as HF.
  eapply Forall2_In_impl; [exact HF|].
  simpl. intros f f' Hf _ Htch. unfold touched in Htch.
  destruct (id f =? cb_id t) eqn:E; [|subst f'; auto].
  apply String.eqb_eq in E. destruct Htch as (Hi & Hn & Hs & _).
  repeat split; auto. rewrite Hs.
  pose proof (head_timer_rank c0 st t q f HI Hq Hf E) as Hrk.
  destruct HI as [_ _ Htim _ _ _ _]. rewrite Hq in Htim.
  inversion Htim as [|? ? (c1 & _ & Hst1 & _) _]; subst.
  destruct (stage_rank _ _ Hst1) as [Hr1 Hi4].
  destruct Hrk as [Hrk|Hrk].
  - right. rewrite <- Hrk in Hr1, Hi4.
    destruct (status f), (cb_stage t); simpl in Hr1, Hi4;
      try discriminate; try lia; reflexivity.
  - left. apply rank_inj. lia.
Qed.

Lemma step_files c0 st e :
  Inv c0 st ->
  files_change (fun a b => b = a \/ advance a = Some b) st e
               (files (step random st e)).
Proof.
  intros HI. destruct e; simpl.
  - apply handleDrop_files.
  - exists [mkDoc (toString (clock st + ms))
                  ("Document_" ++ slice_last6 (toString (clock st)) ++ ".pdf")
                  uploading None None].
    split; [reflexivity|now repeat constructor].
  - reflexivity.
  - now apply (timerFires_files c0).
  - induction (files st); constructor; auto.
Qed.

Lemma files_change_impl (R S : Status -> Status -> Prop) st e after :
  (forall a b, R a b -> S a b) ->
  files_change R st e after -> files_change S st e after.
Proof.
  intros HRS. destruct e; simpl; auto;
    apply Forall2_impl; intros f f' (Hi & Hn & HR); auto.
Qed.

(** *** Draining the timers *)

Lemma timerFires_pops st t q :
  timers st = t :: q -> (due t <= clock st)%N ->
  timers (timerFires random st) = q
  /\ clock (timerFires random st) = clock st.
Proof.
  intros Hq Hdue. unfold timerFires. rewrite Hq.
  apply N.leb_le in Hdue. rewrite Hdue.
  apply (runCallback_rest random t (mkState (files st) q (clock st) (drawn st))).
Qed.

Lemma drain_timers st n :
  List.length (timers st) = n ->
  Forall (fun t => (due t <= clock st)%N) (timers st) ->
  timers (run random (repeat TimerFires n) st) = [].
Proof.
  revert st. induction n as [|n IH]; intros st Hlen Hdue; simpl.
  - now apply length_zero_iff_nil.
  - destruct (timers st) as [|t q] eqn:Hq; [discriminate|].
    inversion Hdue as [|? ? Ht Hrest]; subst.
    destruct (timerFires_pops st t q Hq Ht) as [Hq' Hc'].
    apply IH.
    + rewrite Hq'. simpl in Hlen. lia.
    + rewrite Hq', Hc'. exact Hrest.
Qed.

Lemma Inv_all_due c0 st :
  Inv c0 st ->
  Forall (fun t => (due t <= clock (elapse 4800 st))%N) (timers (elapse 4800 st)).
Proof.
  intros [_ _ Htim _ _ _ _]. simpl.
  eapply Forall_impl; [|exact Htim]. simpl.
  intros t (c & Hc & Hst & Ht). apply stage_rank in Hst.
  rewrite Ht. simpl. lia.
Qed.

Lemma Inv_drained c0 st f :
  Inv c0 st -> timers st = [] -> In f (files st) ->
  isProcessing (status f) = false.
Proof.
  intros [_ _ _ Hfil _ _ Horg] Hq Hf.
  destruct (isProcessing (status f)) eqn:Hp; [exfalso|reflexivity].
  destruct (Horg f Hf Hp) as (c & Hc & Hid).
  destruct (Hfil f c Hf Hid Hc) as (_ & _ & _ & H4).
  rewrite Hq in H4.
  destruct (status f); try discriminate; simpl in H4.
  - now apply (H4 0 classifying).
  - now apply (H4 1 extracting); auto.
  - now apply (H4 2 validating); auto.
  - now apply (H4 3 done); auto.
Qed.


Lemma quiet_files c0 evs st :
  Forall quiet evs -> Inv c0 st ->
  Forall2 (fun f f' => id f' = id f /\ name f' = name f
                       /\ (status f' = review <-> status f = review))
          (files st) (files (run random evs st)).
Proof.
  unfold run. intros Hq. revert st.
  induction Hq as [|e evs He _ IH]; simpl; intros st HI.
  - induction (files st); constructor; tauto.
  - pose proof (step_files c0 st e HI) as H1.
    specialize (IH _ (Inv_step c0 st e HI)).
    assert (H1' : Forall2 (fun f f' => id f' = id f /\ name f' = name f
                       /\ (status f' = status f
                           \/ advance (status f) = Some (status f')))
                    (files st) (files (step random st e))).
    { destruct e; simpl in He; try contradiction; exact H1. }
    eapply Forall2_compose; [|exact H1'|exact IH].
    simpl. intros a b c (Hi & Hn & Hs) (Hi' & Hn' & Hs').
    repeat split; try congruence.
    + intros Hc. apply Hs' in Hc. destruct Hs as [Hs|Hs]; [congruence|].
      rewrite Hc in Hs. destruct (status a); discriminate.
    + intros Ha. apply Hs'. destruct Hs as [Hs|Hs]; [congruence|].
      rewrite Ha in Hs. discriminate.
Qed.

End Steps.


(** *** How the status moves *)



(** X18. The pipeline routes nothing by confidence: from mount on, a row
    that is classifying carries no confidence at all, every event leaves it
    classifying or moves it to extracting, and no event ever puts a row
    into review. *)
Theorem classifying_advances_to_extracting (random : nat -> number) (now : N)
        (evs : list Event) (e : Event) :
  (3 < now)%N ->
  let st := run random evs (mount now) in
  (forall f, In f (files st) -> status f = classifying -> confidence f = None)
  /\ files_change (fun a b => (a = classifying -> b = classifying \/ b = extracting)
                              /\ (b = review -> a = review))
                  st e (files (step random st e)).
Proof.
  intros Hnow st. pose proof (Inv_run random now evs Hnow) as HI. split.
  - intros f Hf Hs. apply (inv_conf _ _ HI f Hf). now rewrite Hs.
  - apply (files_change_impl (fun a b => b = a \/ advance a = Some b)).
    + intros a b [->|H]; split; auto.
      * intros ->. simpl in H. injection H as <-. auto.
      * intros ->. destruct a; discriminate.
    + now apply (step_files random now).
Qed.

Lemma classifying_advances_to_extracting_witness :
  (3 < 1000)%N /\
  let st := run halves [Click 0; Elapse 1200; TimerFires; Elapse 1200]
                (mount 1000) in
  (forall f, In f (files st) -> status f = classifying -> confidence f = None)
  /\ files_change (fun a b => (a = classifying -> b = classifying \/ b = extracting)
                              /\ (b = review -> a = review))
                  st TimerFires (files (step halves st TimerFires)).
Proof.
  split; [reflexivity|].
  apply (classifying_advances_to_extracting halves 1000
           [Click 0; Elapse 1200; TimerFires; Elapse 1200] TimerFires).
  reflexivity.
Defined.

(** X19. Every upload ends in done: from mount on, every event leaves a
    validating row validating or makes it done, no event puts a row into
    review, and once 4.8 seconds have passed and the pending timers have
    run, no timer is left and every row is done, save those that were in
    review. *)
Theorem validating_always_yields_done (random : nat -> number) (now : N)
        (evs : list Event) (e : Event) :
  (3 < now)%N ->
  let st := run random evs (mount now) in
  files_change (fun a b => (a = validating -> b = validating \/ b = done)
                           /\ (b = review -> a = review))
               st e (files (step random st e))
  /\ let st' := run random (Elapse 4800 :: repeat TimerFires (List.length (timers st))) st in
     timers st' = []
     /\ Forall2 (fun f f' => id f' = id f /\ name f' = name f
                             /\ status f' = if Status_eqb (status f) review
                                            then review else done)
                (files st) (files st').
Proof.
  intros Hnow st. pose proof (Inv_run random now evs Hnow) as HI.
  fold st in HI. split; [|split].
  - apply (files_change_impl (fun a b => b = a \/ advance a = Some b)).
    + intros a b [->|H]; split; auto.
      * intros ->. simpl in H. injection H as <-. auto.
      * intros ->. destruct a; discriminate.
    + now apply (step_files random now).
  - apply (drain_timers random (elapse 4800 st)); [reflexivity|].
    now apply (Inv_all_due now).
  - set (tail := Elapse 4800 :: repeat TimerFires (List.length (timers st))).
    assert (Hq : Forall quiet tail).
    { constructor; [exact I|]. apply Forall_forall.
      intros x Hx. apply repeat_spec in Hx. now subst x. }
    pose proof (Inv_run_from random now tail st HI) as HI'.
    assert (Hnil : timers (run random tail st) = []).
    { apply (drain_timers random (elapse 4800 st)); [reflexivity|].
      now apply (Inv_all_due now). }
    eapply Forall2_In_impl; [exact (quiet_files random now tail st Hq HI)|].
    simpl. intros f f' _ Hf' (Hi & Hn & Hs). repeat split; auto.
    pose proof (Inv_drained now _ f' HI' Hnil Hf') as Hp.
    destruct (status f) eqn:Ef; simpl;
      try (destruct (status f'); try discriminate; try reflexivity;
           exfalso; assert (X : review = review) by reflexivity;
           apply Hs in X; discriminate).
Qed.

Lemma validating_always_yields_done_witness :
  (3 < 1000)%N /\
  let st := run halves
                [Click 0; Elapse 3600; TimerFires; TimerFires; TimerFires]
                (mount 1000) in
  files_change (fun a b => (a = validating -> b = validating \/ b = done)
                           /\ (b = review -> a = review))
               st TimerFires (files (step halves st TimerFires))
  /\ let st' := run halves
                    (Elapse 4800 :: repeat TimerFires (List.length (timers st))) st in
     timers st' = []
     /\ Forall2 (fun f f' => id f' = id f /\ name f' = name f
                             /\ status f' = if Status_eqb (status f) review
                                            then review else done)
                (files st) (files st').
Proof.
  split; [reflexivity|].
  apply (validating_always_yields_done halves 1000
           [Click 0; Elapse 3600; TimerFires; TimerFires; TimerFires] TimerFires).
  reflexivity.
Defined.

End UploadFacts.

(** * Further properties of the Reviewer page *)

Module ReviewerMore.
Import Reviewer ReviewerFacts.

Lemma saveField_tidy k ev f :
  corrected f <> Some (value f) ->
  corrected (saveField k ev f) <> Some (value (saveField k ev f)).
Proof.
  unfold saveField. intros Hf.
  destruct (key f =? k); [|exact Hf]. simpl.
  destruct (ev =? value f) eqn:E; simpl; [discriminate|].
  apply String.eqb_neq in E. congruence.
Qed.

Lemma applyEdits_tidy edits st :
  Forall (fun f => corrected f <> Some (value f)) (fields st) ->
  Forall (fun f => corrected f <> Some (value f)) (fields (applyEdits edits st)).
Proof.
  unfold applyEdits. revert st.
  induction edits as [|[k ev] edits IH]; simpl; intros st H; [exact H|].
  apply IH. rewrite saveEdit_fields. apply Forall_map.
  eapply Forall_impl; [|exact H]. intros f. apply saveField_tidy.
Qed.

Lemma tidy_tag f :
  corrected f <> Some (value f) ->
  (correctedTag f = true <-> shownValue f <> value f).
Proof.
  unfold correctedTag, shownValue, or_else, truthy. intros Hf.
  destruct (corrected f) as [s|]; [|split; [discriminate|congruence]].
  destruct (s =? "") eqn:E; simpl.
  - split; [discriminate|congruence].
  - split; [|reflexivity]. intros _ Hs. apply Hf. now subst.
Qed.

(** X1. Whatever edits are saved, starting from fields none of which stores
    a correction equal to its extracted value, no field ever stores such a
    correction; and so a row carries the "corrected" tag exactly when it
    shows something other than the extracted value. *)
Theorem corrected_tag_means_changed (edits : list (string * string)) (st : State) :
  Forall (fun f => corrected f <> Some (value f)) (fields st) ->
  Forall (fun f => corrected f <> Some (value f)
                   /\ (correctedTag f = true <-> shownValue f <> value f))
         (fields (applyEdits edits st)).
Proof.
  intros H. apply (applyEdits_tidy edits) in H.
  eapply Forall_impl; [|exact H]. intros f Hf. split; [exact Hf|].
  now apply tidy_tag.
Qed.

Lemma corrected_tag_means_changed_witness :
  Forall (fun f => corrected f <> Some (value f)) (fields initialState)
  /\ Forall (fun f => corrected f <> Some (value f)
                      /\ (correctedTag f = true <-> shownValue f <> value f))
            (fields (applyEdits [("employer", "Infosys Ltd"); ("ifsc", "")]
                                initialState)).
Proof.
  assert (H : Forall (fun f => corrected f <> Some (value f)) (fields initialState)).
  { simpl. repeat constructor; discriminate. }
  split; [exact H|].
  exact (corrected_tag_means_changed
           [("employer", "Infosys Ltd"); ("ifsc", "")] initialState H).
Defined.

(** X2. Two saves compose: for the same key the later one alone decides,
    for different keys the order does not matter. *)
Theorem saves_compose (k1 k2 e1 e2 : string) (st : State) :
  fields (saveEdit k2 (setEditValue e2 (saveEdit k1 (setEditValue e1 st))))
  = if k1 =? k2
    then fields (saveEdit k2 (setEditValue e2 st))
    else fields (saveEdit k1 (setEditValue e1 (saveEdit k2 (setEditValue e2 st)))).
Proof.
  repeat (rewrite saveEdit_fields; simpl).
  destruct (k1 =? k2) eqn:E.
  - apply String.eqb_eq in E. subst k2. rewrite map_map. apply map_ext.
    intros f. unfold saveField. simpl.
    destruct (key f =? k1) eqn:Ek; simpl; rewrite Ek; reflexivity.
  - rewrite !map_map. apply map_ext. intros f. unfold saveField.
    destruct (key f =? k1) eqn:E1; destruct (key f =? k2) eqn:E2;
      simpl; rewrite ?E1, ?E2; try reflexivity.
    apply String.eqb_eq in E1, E2. apply String.eqb_neq in E. congruence.
Qed.

(** X3. Saving under a key that no field has changes no field; the page
    still leaves edit mode and shows the "learning applied" banner. *)
Theorem save_missing_key (k : string) (st : State) :
  Forall (fun f => key f <> k) (fields st) ->
  fields (saveEdit k st) = fields st
  /\ editingKey (saveEdit k st) = None
  /\ saved (saveEdit k st) = true.
Proof.
  intros H. split; [|split; reflexivity].
  rewrite saveEdit_fields.
  induction H as [|f l Hf _ IH]; simpl; [reflexivity|].
  now rewrite IH, saveField_miss.
Qed.

Lemma save_missing_key_witness :
  Forall (fun f => key f <> "pan") (fields initialState)
  /\ fields (saveEdit "pan" (setEditValue "ABCDE1234F" initialState))
     = fields (setEditValue "ABCDE1234F" initialState)
  /\ editingKey (saveEdit "pan" (setEditValue "ABCDE1234F" initialState)) = None
  /\ saved (saveEdit "pan" (setEditValue "ABCDE1234F" initialState)) = true.
Proof.
  assert (H : Forall (fun f => key f <> "pan") (fields initialState)).
  { simpl. repeat constructor; discriminate. }
  split; [exact H|].
  exact (save_missing_key "pan" (setEditValue "ABCDE1234F" initialState) H).
Defined.

(** X4. Opening a field for editing and saving without typing leaves the
    row as it looks: the shown value and the "corrected" tag of the field
    are what they were (given that its stored correction, if any, differs
    from the extracted value); the field itself is unchanged unless it
    stored an empty correction, which the save drops. *)
Theorem open_and_save_keeps_row (st : State) (i : nat) (f : Field) :
  nth_error (fields st) i = Some f ->
  corrected f <> Some (value f) ->
  exists f', nth_error (fields (saveEdit (key f) (startEdit f st))) i = Some f'
             /\ shownValue f' = shownValue f
             /\ correctedTag f' = correctedTag f
             /\ f' = if truthy (corrected f) then f else setCorrected f None.
Proof.
  intros Hi Ht.
  exists (saveField (key f) (or_else (corrected f) (value f)) f).
  split.
  - rewrite saveEdit_fields. simpl. now rewrite nth_error_map, Hi.
  - rewrite (saveField_hit (key f) _ f eq_refl).
    unfold shownValue, correctedTag, or_else, truthy.
    destruct f as [k l v c [s|]]; simpl in *.
    + destruct (s =? "") eqn:E; simpl.
      * rewrite String.eqb_refl. auto.
      * destruct (s =? v) eqn:Ev.
        -- apply String.eqb_eq in Ev. subst. congruence.
        -- simpl. rewrite E. auto.
    + rewrite String.eqb_refl. auto.
Qed.

Lemma open_and_save_keeps_row_witness :
  let st := saveEdit "ifsc" (setEditValue "" initialState) in
  let f := mkField "ifsc" "IFSC Code" "HDFC0001234" (978 # 10) (Some "") in
  nth_error (fields st) 3 = Some f
  /\ corrected f <> Some (value f)
  /\ exists f', nth_error (fields (saveEdit (key f) (startEdit f st))) 3 = Some f'
                /\ shownValue f' = shownValue f
                /\ correctedTag f' = correctedTag f
                /\ f' = if truthy (corrected f) then f else setCorrected f None.
Proof.
  intros st f.
  assert (H1 : nth_error (fields st) 3 = Some f) by reflexivity.
  assert (H2 : corrected f <> Some (value f)) by discriminate.
  split; [exact H1|]. split; [exact H2|].
  exact (open_and_save_keeps_row st 3 f H1 H2).
Defined.

End ReviewerMore.

(** * Further properties of the Upload page *)

Module UploadMore.
Import Upload UploadFacts.

(** *** Picking a type *)

Lemma pickType_in_range (r : number) :
  0 <= r -> r < 1 -> exists ty, pickType r = Some ty /\ In ty types.
Proof.
  intros H0 H1. unfold pickType.
  assert (Hk0 : (0 <= Qfloor (r * 4))%Z).
  { change (Qfloor 0 <= Qfloor (r * 4))%Z. apply Qfloor_resp_le. lra. }
  assert (Hk4 : (Qfloor (r * 4) < 4)%Z).
  { rewrite Zlt_Qlt. apply Qle_lt_trans with (r * 4); [apply Qfloor_le|].
    change (inject_Z 4) with 4. lra. }
  destruct (Z.ltb_spec (Qfloor (r * 4)) 0) as [H|_]; [lia|].
  destruct (nth_error types (Z.to_nat (Qfloor (r * 4)))) as [ty|] eqn:E.
  - exists ty. split; [reflexivity|]. eapply nth_error_In; exact E.
  - apply nth_error_None in E. change (List.length types) with 4%nat in E. lia.
Qed.

Lemma pickType_out_of_range (r : number) :
  r < 0 \/ 1 <= r -> pickType r = None.
Proof.
  intros [H|H]; unfold pickType.
  - assert (Hk : (Qfloor (r * 4) < 0)%Z).
    { rewrite Zlt_Qlt. apply Qle_lt_trans with (r * 4); [apply Qfloor_le|].
      change (inject_Z 0) with 0. lra. }
    apply Z.ltb_lt in Hk. now rewrite Hk.
  - assert (Hk : (4 <= Qfloor (r * 4))%Z).
    { change (Qfloor 4 <= Qfloor (r * 4))%Z. apply Qfloor_resp_le. lra. }
    destruct (Z.ltb_spec (Qfloor (r * 4)) 0) as [_|_]; [reflexivity|].
    apply nth_error_None. change (List.length types) with 4%nat. lia.
Qed.

(** X5. The type drawn for a row is one of the four types exactly when the
    random value lies in [0, 1), as [Math.random] guarantees; outside that
    range the index falls off the list and the type is undefined. *)
Theorem pickType_defined_iff (r : number) :
  (pickType r <> None <-> 0 <= r /\ r < 1)
  /\ (forall ty, pickType r = Some ty -> In ty types).
Proof.
  split; [split|].
  - intros H. destruct (Qlt_le_dec r 0) as [Hn|Hp].
    + exfalso. apply H. apply pickType_out_of_range. now left.
    + split; [exact Hp|]. destruct (Qlt_le_dec r 1) as [Hl|Hg]; [exact Hl|].
      exfalso. apply H. apply pickType_out_of_range. now right.
  - intros [H0 H1]. destruct (pickType_in_range r H0 H1) as (ty & E & _).
    congruence.
  - intros ty H. unfold pickType in H.
    destruct (Qfloor (r * 4) <? 0)%Z; [discriminate|].
    eapply nth_error_In; exact H.
Qed.


(** *** Rows and what they render *)

(** X6. Every status has its entry in the label table, so a row's label and
    colour are never undefined; and a row shows exactly one of the three
    status icons: the spinner while it is processing (just when the progress
    bar is there), the check mark when done, the alert when in review. *)
Theorem row_label_and_icon (file : DocFile) :
  (exists info, statusInfo file = Some info)
  /\ (Nat.b2n (showClock file) + Nat.b2n (showCheck file)
      + Nat.b2n (showAlert file) = 1)%nat
  /\ (progressBar file <> None <-> showClock file = true).
Proof.
  unfold statusInfo, showClock, showCheck, showAlert, progressBar.
  destruct (status file); simpl; (split; [eexists; reflexivity|]);
    (split; [reflexivity|]); split; congruence.
Qed.

(** *** Drops and removals *)

Lemma filter_none {A} (p : A -> bool) l :
  Forall (fun x => p x = false) l -> filter p l = [].
Proof. induction 1 as [|x l Hx _ IH]; simpl; [|rewrite Hx]; auto. Qed.

Lemma filter_all {A} (p : A -> bool) l :
  Forall (fun x => p x = true) l -> filter p l = l.
Proof. induction 1 as [|x l Hx _ IH]; simpl; [|rewrite Hx, IH]; auto. Qed.

Lemma setTimeout_length t q : List.length (setTimeout t q) = S (List.length q).
Proof.
  induction q as [|u q IH]; simpl; [reflexivity|].
  destruct (due u <=? due t)%N; simpl; now rewrite ?IH.
Qed.

Lemma handleDrop_rows dropped st :
  files (handleDrop dropped st)
  = (rev (dropRows (clock st) dropped) ++ files st)%list
  /\ List.length (timers (handleDrop dropped st))
     = (List.length (timers st) + 4 * List.length dropped)%nat
  /\ clock (handleDrop dropped st)
     = (clock st + fold_right (fun f total => fst f + total) 0 dropped)%N.
Proof.
  unfold handleDrop. revert st.
  induction dropped as [|f l IH]; intros st; simpl.
  - repeat split; lia.
  - destruct (IH (simulateUpload (snd f) (elapse (fst f) st))) as (Hf & Ht & Hc).
    rewrite Hf, Ht, Hc. repeat split.
    + simpl. rewrite <- app_assoc. reflexivity.
    + rewrite simulateUpload_timers, !setTimeout_length. simpl. lia.
    + simpl. lia.
Qed.

Lemma dropRows_at_once c names :
  dropRows c (at_once names)
  = map (fun nm => mkDoc (toString c) nm uploading None None) names.
Proof.
  revert c. induction names as [|nm l IH]; intros c; simpl; [reflexivity|].
  rewrite N.add_0_r. now rewrite IH.
Qed.

(** X7. A drop puts one row per dropped file in front of the list, the last
    dropped file on top, each in uploading and with the clock reading of
    its own upload as id; it sets four timers per file, leaves the rows
    that were there as they are, and ends with the clock at its last
    reading. *)
Theorem drop_adds_rows (dropped : list (N * string)) (st : State) :
  files (handleDrop dropped st)
  = (rev (dropRows (clock st) dropped) ++ files st)%list
  /\ List.length (timers (handleDrop dropped st))
     = (List.length (timers st) + 4 * List.length dropped)%nat
  /\ clock (handleDrop dropped st)
     = (clock st + fold_right (fun f total => fst f + total) 0 dropped)%N.
Proof. apply handleDrop_rows. Qed.

(** X8. Files whose uploads read the same millisecond share one id, so the
    remove button of one removes them all: when every file of a drop is
    uploaded within the millisecond of the drop and no earlier row has that
    reading as id, the drop followed by the removal gives back the list as
    it was before the drop, while the timers of the drop all stay
    pending. *)
Theorem remove_after_drop (names : list string) (st : State) :
  Forall (fun f => id f <> toString (clock st)) (files st) ->
  let st' := removeFile (toString (clock st)) (handleDrop (at_once names) st) in
  files st' = files st
  /\ List.length (timers st')
     = (List.length (timers st) + 4 * List.length names)%nat.
Proof.
  intros Hfresh st'.
  destruct (handleDrop_rows (at_once names) st) as (Hf & Ht & _).
  split; [|unfold st'; simpl; rewrite Ht; unfold at_once; now rewrite length_map].
  unfold st'. simpl. rewrite Hf, filter_app, dropRows_at_once.
  rewrite filter_none, filter_all; [reflexivity| |].
  - eapply Forall_impl; [|exact Hfresh]. simpl. intros f H.
    apply String.eqb_neq in H. now rewrite H.
  - apply Forall_rev, Forall_map, Forall_forall. intros nm _. simpl.
    now rewrite String.eqb_refl.
Qed.

Lemma remove_after_drop_witness :
  Forall (fun f => id f <> toString (clock (mount 1000))) (files (mount 1000))
  /\ let st' := removeFile (toString (clock (mount 1000)))
                           (handleDrop (at_once ["a.pdf"; "b.pdf"]) (mount 1000)) in
     files st' = files (mount 1000)
     /\ List.length (timers st')
        = (List.length (timers (mount 1000)) + 4 * List.length ["a.pdf"; "b.pdf"])%nat.
Proof.
  assert (H : Forall (fun f => id f <> toString (clock (mount 1000)))
                     (files (mount 1000))).
  { simpl. repeat constructor; discriminate. }
  split; [exact H|].
  exact (remove_after_drop ["a.pdf"; "b.pdf"] (mount 1000) H).
Defined.

(** *** Timers *)

Section Runs.
Variable random : nat -> number.

Lemma stageFile_stamped t f n :
  stamped random t f (fst (stageFile random (cb_id t) (cb_stage t) (cb_i t) f n)).
Proof.
  unfold stamped, stageFile, bind, ret, mathRandom.
  destruct (id f =? cb_id t); [|reflexivity].
  destruct (1 <=? cb_i t)%nat; destruct (Status_eqb (cb_stage t) done); simpl;
    first [ exists n, (S n); reflexivity | exists n, n; reflexivity ].
Qed.

Lemma runCallback_stamped t st :
  Forall2 (stamped random t) (files st) (files (runCallback random t st)).
Proof.
  unfold runCallback.
  pose proof (mapM_Forall2 (stamped random t) _ (stageFile_stamped t)
                           (files st) (drawn st)) as H.
  destruct (mapM _ (files st) (drawn st)) as [fs n]. exact H.
Qed.

Lemma Forall2_same {A} (R : A -> A -> Prop) l :
  (forall a, R a a) -> Forall2 R l l.
Proof. intros H. induction l; constructor; auto. Qed.

(** X9. A timer never adds, removes or reorders rows and never changes an
    id or a name.  When the first pending timer is due, it is taken off the
    queue, the rows with its id get its stage and every other row is left
    exactly as it is; when none is due, nothing changes.  The clock is not
    touched. *)
Theorem timer_touches_only_its_rows (st : State) :
  Forall2 (fun f f' =>
             id f' = id f /\ name f' = name f
             /\ match nextTimer st with
                | Some t => if id f =? cb_id t
                            then status f' = cb_stage t else f' = f
                | None => f' = f
                end)
          (files st) (files (timerFires random st))
  /\ timers (timerFires random st)
     = match nextTimer st with Some _ => tl (timers st) | None => timers st end
  /\ clock (timerFires random st) = clock st.
Proof.
  unfold timerFires, nextTimer.
  destruct (timers st) as [|t q] eqn:Hq.
  - rewrite Hq. repeat split. apply Forall2_same. auto.
  - destruct (due t <=? clock st)%N.
    + set (st1 := mkState (files st) q (clock st) (drawn st)).
      destruct (runCallback_rest random t st1) as [Ht Hc].
      split; [|split; [exact Ht|exact Hc]].
      eapply Forall2_impl; [|exact (runCallback_files random t st1)].
      unfold touched. intros f f'. destruct (id f =? cb_id t).
      * intros (Hi & Hn & Hs & _). auto.
      * intros ->. auto.
    + rewrite Hq. repeat split. apply Forall2_same. auto.
Qed.

(** *** Rows that share an id, and the time a stage takes *)

Lemma Sync_mount now : (3 < now)%N -> Sync now (mount now).
Proof.
  intros Hnow. constructor; simpl.
  - intros f g [<-|[<-|[<-|[]]]] [<-|[<-|[<-|[]]]]; simpl;
      intros; try reflexivity; discriminate.
  - intros f c [<-|[<-|[<-|[]]]] Hid Hc; simpl in Hid;
      [change "1" with (toString 1) in Hid
      |change "2" with (toString 2) in Hid
      |change "3" with (toString 3) in Hid];
      apply toString_inj in Hid; lia.
Qed.

Lemma rank_zero s : rank s = 0%nat -> s = uploading.
Proof. destruct s; simpl; intros; try reflexivity; discriminate. Qed.

Lemma Sync_simulateUpload c0 nm st :
  Inv c0 st -> Sync c0 st -> Sync c0 (simulateUpload nm st).
Proof.
  intros HI [Hs Ht].
  assert (Hnew : forall g, In g (files st) -> id g = toString (clock st) ->
                           status g = uploading).
  { intros g Hg Hid. apply rank_zero.
    destruct (inv_files _ _ HI g (clock st) Hg Hid (inv_clock _ _ HI))
      as (_ & H2 & _).
    destruct (rank (status g)); [reflexivity|].
    assert (1 <= S n)%nat by lia. specialize (H2 H). lia. }
  constructor.
  - intros f g [<-|Hf] [<-|Hg] Hid; simpl in *; auto.
    symmetry. apply Hnew; auto.
  - intros f c [<-|Hf] Hid Hc; simpl in *.
    + apply toString_inj in Hid. subst c. lia.
    + now apply Ht.
Qed.

Lemma Sync_elapse c0 ms st : Sync c0 st -> Sync c0 (elapse ms st).
Proof.
  intros [Hs Ht]. constructor; [exact Hs|].
  intros f c Hf Hid Hc. specialize (Ht f c Hf Hid Hc).
  change (clock (elapse ms st)) with (clock st + ms)%N. lia.
Qed.

Lemma Sync_handleDrop c0 dropped st :
  Inv c0 st -> Sync c0 st -> Sync c0 (handleDrop dropped st).
Proof.
  unfold handleDrop. revert st.
  induction dropped as [|f l IH]; simpl; intros st HI HS; [exact HS|].
  apply IH.
  - now apply Inv_simulateUpload, Inv_elapse.
  - apply Sync_simulateUpload; [now apply Inv_elapse|now apply Sync_elapse].
Qed.

Lemma Sync_timerFires c0 st :
  Inv c0 st -> Sync c0 st -> Sync c0 (timerFires random st).
Proof.
  intros HI [Hs Ht]. unfold timerFires.
  destruct (timers st) as [|t q] eqn:Hq; [now constructor|].
  destruct (due t <=? clock st)%N eqn:Hdue; [|now constructor].
  apply N.leb_le in Hdue.
  set (st1 := mkState (files st) q (clock st) (drawn st)).
  pose proof (runCallback_files random t st1) as HF.
  destruct (runCallback_rest random t st1) as [_ Hc].
  pose proof (inv_timers _ _ HI) as Htim. rewrite Hq in Htim.
  inversion Htim as [|? ? (c1 & Hc1 & Hst1 & Ht1) _]; subst.
  destruct (stage_rank _ _ Hst1) as [Hr1 _].
  constructor.
  - intros f' g' Hf' Hg' Hid.
    destruct (Forall2_In_r _ _ _ _ HF Hf') as (f & Hf & Hft).
    destruct (Forall2_In_r _ _ _ _ HF Hg') as (g & Hg & Hgt).
    simpl in Hf, Hg. unfold touched in Hft, Hgt.
    destruct (id f =? cb_id t) eqn:Ef; destruct (id g =? cb_id t) eqn:Eg.
    + destruct Hft as (_ & _ & -> & _). destruct Hgt as (_ & _ & -> & _).
      reflexivity.
    + subst g'. destruct Hft as (Hi & _). apply String.eqb_eq in Ef.
      apply String.eqb_neq in Eg. congruence.
    + subst f'. destruct Hgt as (Hi & _). apply String.eqb_eq in Eg.
      apply String.eqb_neq in Ef. congruence.
    + subst f' g'. auto.
  - intros f' c Hf' Hid Hcc. rewrite Hc. change (clock st1) with (clock st).
    destruct (Forall2_In_r _ _ _ _ HF Hf') as (f & Hf & Hft).
    simpl in Hf. unfold touched in Hft.
    destruct (id f =? cb_id t) eqn:Ef.
    + apply String.eqb_eq in Ef. destruct Hft as (Hi & _ & Hst & _).
      assert (c = c1).
      { apply toString_inj. rewrite <- Hid, Hi, Ef, Ht1. reflexivity. }
      subst c1. rewrite Hst, Hr1.
      assert (Hd : due t = (c + N.of_nat (S (cb_i t)) * 1200)%N)
        by (rewrite Ht1; reflexivity).
      lia.
    + subst f'. now apply Ht.
Qed.

Lemma Sync_step c0 st e :
  Inv c0 st -> Sync c0 st -> Sync c0 (step random st e).
Proof.
  intros HI HS. destruct e; simpl.
  - now apply Sync_handleDrop.
  - apply Sync_simulateUpload; [now apply Inv_elapse|now apply Sync_elapse].
  - destruct HS as [Hs Ht]. constructor; simpl.
    + intros f g Hf Hg. apply filter_In in Hf, Hg. apply Hs; tauto.
    + intros f c Hf. apply filter_In in Hf. apply Ht; tauto.
  - now apply Sync_timerFires.
  - now apply Sync_elapse.
Qed.

Lemma Sync_run now evs : (3 < now)%N -> Sync now (run random evs (mount now)).
Proof.
  intros Hnow. unfold run.
  assert (HI : Inv now (mount now)) by now apply Inv_mount.
  assert (HS : Sync now (mount now)) by now apply Sync_mount.
  revert HI HS. generalize (mount now).
  induction evs as [|e evs IH]; simpl; intros st HI HS; [exact HS|].
  apply IH; [now apply Inv_step|now apply Sync_step].
Qed.

End Runs.

(** X10. From mount on, rows that share an id always show the same status:
    files dropped in the same millisecond move through the stages
    together. *)
Theorem same_id_same_status (random : nat -> number) (now : N)
        (evs : list Event) (f g : DocFile) :
  (3 < now)%N ->
  In f (files (run random evs (mount now))) ->
  In g (files (run random evs (mount now))) ->
  id f = id g -> status f = status g.
Proof. intros Hnow. apply (sync_status _ _ (Sync_run random now evs Hnow)). Qed.

Lemma same_id_same_status_witness :
  let st := run halves [Drop (at_once ["a.pdf"; "b.pdf"]); Elapse 1200; TimerFires]
                (mount 1000) in
  let f := mkDoc "1000" "b.pdf" classifying None None in
  let g := mkDoc "1000" "a.pdf" classifying None None in
  (3 < 1000)%N /\ In f (files st) /\ In g (files st) /\ id f = id g
  /\ status f = status g.
Proof.
  intros st f g.
  assert (H0 : (3 < 1000)%N) by reflexivity.
  assert (H1 : In f (files st)) by (left; reflexivity).
  assert (H2 : In g (files st)) by (right; left; reflexivity).
  assert (H3 : id f = id g) by reflexivity.
  split; [exact H0|]. split; [exact H1|]. split; [exact H2|]. split; [exact H3|].
  exact (same_id_same_status halves 1000
           [Drop (at_once ["a.pdf"; "b.pdf"]); Elapse 1200; TimerFires] f g H0 H1 H2 H3).
Defined.

(** X11. No stage is shown before its time: from mount on, a row uploaded
    at clock reading [c] that has passed [r] stages is seen only when the
    clock reads [c + 1200 r] or more; a row is done no sooner than 4.8
    seconds after its upload. *)
Theorem stage_takes_its_time (random : nat -> number) (now c : N)
        (evs : list Event) (f : DocFile) :
  (3 < now)%N ->
  In f (files (run random evs (mount now))) ->
  id f = toString c -> (now <= c)%N ->
  (c + 1200 * N.of_nat (rank (status f)) <= clock (run random evs (mount now)))%N.
Proof. intros Hnow. apply (sync_time _ _ (Sync_run random now evs Hnow)). Qed.

Lemma stage_takes_its_time_witness :
  let evs := [Click 0; Elapse 2500; TimerFires; TimerFires] in
  let st := run halves evs (mount 1000) in
  let f := mkDoc "1000" "Document_1000.pdf" extracting (Some "Payslip") None in
  (3 < 1000)%N /\ In f (files st) /\ id f = toString 1000 /\ (1000 <= 1000)%N
  /\ (1000 + 1200 * N.of_nat (rank (status f)) <= clock st)%N.
Proof.
  intros evs st f.
  assert (H0 : (3 < 1000)%N) by reflexivity.
  assert (H1 : In f (files st)) by (left; reflexivity).
  assert (H2 : id f = toString 1000) by reflexivity.
  assert (H3 : (1000 <= 1000)%N) by reflexivity.
  split; [exact H0|]. split; [exact H1|]. split; [exact H2|]. split; [exact H3|].
  exact (stage_takes_its_time halves 1000 1000 evs f H0 H1 H2 H3).
Defined.


(** *** What a row holds *)

Section Data.
Variable random : nat -> number.
Hypothesis random_range : forall n, 0 <= random n /\ random n < 1.

Lemma stamped_data_ok t f f' :
  nth_error stages (cb_i t) = Some (cb_stage t) ->
  stamped random t f f' -> row_data_ok f -> row_data_ok f'.
Proof.
  intros Hst Hf Hok. unfold stamped in Hf.
  destruct (id f =? cb_id t); [|now subst f'].
  destruct Hf as (n1 & n2 & ->).
  destruct (random_range n1) as [Ha Hb].
  destruct (pickType_in_range (random n1) Ha Hb) as (ty & Hty & Hin).
  destruct (random_range n2) as [Hc Hd].
  unfold stages in Hst. unfold row_data_ok.
  destruct (cb_i t) as [|[|[|[|i]]]]; simpl in Hst;
    try (injection Hst as <-; simpl; rewrite ?Hty).
  - split; reflexivity.
  - split; [eauto|reflexivity].
  - split; [eauto|reflexivity].
  - split; [eauto|]. eexists. split; [reflexivity|]. split; lra.
  - destruct i; discriminate.
Qed.

Lemma data_mount : Forall row_data_ok (files (mount 0)).
Proof.
  unfold row_data_ok. simpl. repeat constructor; simpl; eauto 10;
    eexists; (split; [reflexivity|]); split; discriminate.
Qed.

Lemma data_simulateUpload nm st :
  Forall row_data_ok (files st) -> Forall row_data_ok (files (simulateUpload nm st)).
Proof. intros H. simpl. constructor; [now split|exact H]. Qed.

Lemma data_step c0 st e :
  Inv c0 st -> Forall row_data_ok (files st) ->
  Forall row_data_ok (files (step random st e)).
Proof.
  intros HI H. destruct e; simpl.
  - unfold handleDrop. revert st HI H.
    induction dropped as [|f l IH]; simpl; intros st HI H; [exact H|].
    apply IH; [now apply Inv_simulateUpload, Inv_elapse|].
    now apply data_simulateUpload.
  - constructor; [now split|exact H].
  - apply Forall_forall. intros f Hf. apply filter_In in Hf.
    rewrite Forall_forall in H. apply H. tauto.
  - unfold timerFires. destruct (timers st) as [|t q] eqn:Hq; [exact H|].
    destruct (due t <=? clock st)%N; [|exact H].
    pose proof (inv_timers _ _ HI) as Htim. rewrite Hq in Htim.
    inversion Htim as [|? ? (c1 & _ & Hst1 & _) _]; subst.
    set (st1 := mkState (files st) q (clock st) (drawn st)).
    pose proof (runCallback_stamped random t st1) as HF.
    apply Forall_forall. intros f' Hf'.
    destruct (Forall2_In_r _ _ _ _ HF Hf') as (f & Hf & Hs).
    rewrite Forall_forall in H.
    exact (stamped_data_ok t f f' Hst1 Hs (H f Hf)).
  - exact H.
Qed.

Lemma data_run now evs :
  (3 < now)%N -> Forall row_data_ok (files (run random evs (mount now))).
Proof.
  intros Hnow. unfold run.
  assert (HI : Inv now (mount now)) by now apply Inv_mount.
  assert (HD : Forall row_data_ok (files (mount now))) by exact data_mount.
  revert HI HD. generalize (mount now).
  induction evs as [|e evs IH]; simpl; intros st HI HD; [exact HD|].
  apply IH; [now apply Inv_step|now apply (data_step now)].
Qed.

End Data.

(** X12. With random draws in [0, 1), from mount on every row holds what
    its status promises: no type and no confidence while uploading or
    classifying; one of the four types and no confidence while extracting
    or validating; one of the four types and a confidence from 85 to 99
    when done, so that a done row always carries a confidence tag. *)
Theorem rows_hold_stage_data (random : nat -> number) (now : N)
        (evs : list Event) :
  (forall n, 0 <= random n /\ random n < 1) -> (3 < now)%N ->
  Forall (fun f => row_data_ok f
                   /\ (status f = done -> confidenceTag (confidence f) <> None))
         (files (run random evs (mount now))).
Proof.
  intros Hr Hnow.
  eapply Forall_impl; [|exact (data_run random Hr now evs Hnow)].
  intros f Hf. split; [exact Hf|]. intros Hd.
  unfold row_data_ok in Hf. rewrite Hd in Hf.
  destruct Hf as (_ & c & -> & H85 & _). unfold confidenceTag.
  destruct (Qeq_bool c 0) eqn:E; [|now destruct (gt c 90)].
  apply Qeq_bool_iff in E. lra.
Qed.

Lemma rows_hold_stage_data_witness :
  (forall n, 0 <= halves n /\ halves n < 1) /\ (3 < 1000)%N
  /\ Forall (fun f => row_data_ok f
                      /\ (status f = done -> confidenceTag (confidence f) <> None))
            (files (run halves
                      [Click 0; Elapse 4800; TimerFires; TimerFires; TimerFires;
                       TimerFires] (mount 1000))).
Proof.
  assert (H0 : forall n, 0 <= halves n /\ halves n < 1).
  { intros n. split; [discriminate|reflexivity]. }
  assert (H1 : (3 < 1000)%N) by reflexivity.
  split; [exact H0|]. split; [exact H1|].
  exact (rows_hold_stage_data halves 1000
           [Click 0; Elapse 4800; TimerFires; TimerFires; TimerFires; TimerFires]
           H0 H1).
Defined.

(** X13. The progress bar never runs backwards: from mount on, a row that
    is still processing after an event was processing before it, at a
    width that was no greater; a row that is done or in review never gets
    its bar back. *)
Theorem progress_never_goes_back (random : nat -> number) (now : N)
        (evs : list Event) (e : Event) :
  (3 < now)%N ->
  let st := run random evs (mount now) in
  files_change (fun a b => isProcessing b = true ->
                           isProcessing a = true
                           /\ (progressWidth a <= progressWidth b)%N)
               st e (files (step random st e)).
Proof.
  intros Hnow st.
  apply (files_change_impl (fun a b => b = a \/ advance a = Some b)).
  - intros a b [->|H] Hp.
    + split; [exact Hp|lia].
    + destruct a; simpl in H; try discriminate; injection H as <-;
        simpl in *; try discriminate; split; try reflexivity; discriminate.
  - apply (step_files random now). now apply Inv_run.
Qed.

Lemma progress_never_goes_back_witness :
  (3 < 1000)%N /\
  let st := run halves [Click 0; Elapse 2400; TimerFires] (mount 1000) in
  files_change (fun a b => isProcessing b = true ->
                           isProcessing a = true
                           /\ (progressWidth a <= progressWidth b)%N)
               st TimerFires (files (step halves st TimerFires)).
Proof.
  split; [reflexivity|].
  apply (progress_never_goes_back halves 1000 [Click 0; Elapse 2400; TimerFires]
           TimerFires).
  reflexivity.
Defined.


(** X14. From mount on the pending timers stand in firing order, each is
    due within 4.8 seconds, and each carries the stage that its index
    names in the stage list. *)
Theorem pending_timers_in_order (random : nat -> number) (now : N)
        (evs : list Event) :
  (3 < now)%N ->
  let st := run random evs (mount now) in
  StronglySorted (fun a b => (due a <= due b)%N) (timers st)
  /\ Forall (fun t => (due t <= clock st + 4800)%N
                      /\ nth_error stages (cb_i t) = Some (cb_stage t))
            (timers st).
Proof.
  intros Hnow st. pose proof (Inv_run random now evs Hnow) as HI.
  fold st in HI. split; [exact (inv_sorted _ _ HI)|].
  eapply Forall_impl; [|exact (inv_timers _ _ HI)].
  intros t (c & Hc & Hst & Ht). split; [|exact Hst].
  apply stage_rank in Hst. rewrite Ht. unfold timer_of. cbn [due]. lia.
Qed.

Lemma pending_timers_in_order_witness :
  (3 < 1000)%N /\
  let st := run halves [Click 0; Elapse 700; Drop (at_once ["a.pdf"]); Elapse 500; TimerFires]
                (mount 1000) in
  StronglySorted (fun a b => (due a <= due b)%N) (timers st)
  /\ Forall (fun t => (due t <= clock st + 4800)%N
                      /\ nth_error stages (cb_i t) = Some (cb_stage t))
            (timers st).
Proof.
  split; [reflexivity|].
  apply (pending_timers_in_order halves 1000
           [Click 0; Elapse 700; Drop (at_once ["a.pdf"]); Elapse 500; TimerFires]).
  reflexivity.
Defined.

End UploadMore.

(** * Properties of the other pages *)

Module PagesMore.
Local Close Scope Q_scope.

(** *** The navigation bar *)

Lemma active_count (pathname : string) (l : list Navbar.NavItem) :
  NoDup (map Navbar.path l) ->
  List.length (filter (Navbar.isActive pathname) l)
  = if existsb (Navbar.isActive pathname) l then 1 else 0.
Proof.
  induction l as [|x l IH]; simpl; intros Hnd; [reflexivity|].
  inversion Hnd as [|? ? Hx Hl]; subst. specialize (IH Hl).
  destruct (Navbar.isActive pathname x) eqn:E; simpl; [|exact IH].
  rewrite IH. destruct (existsb (Navbar.isActive pathname) l) eqn:Ex; [|reflexivity].
  exfalso. apply existsb_exists in Ex. destruct Ex as (y & Hy & Ey).
  unfold Navbar.isActive in E, Ey. apply String.eqb_eq in E, Ey.
  apply Hx. rewrite <- E, Ey. now apply in_map.
Qed.

Lemma navItems_paths_differ : NoDup (map Navbar.path Navbar.navItems).
Proof.
  simpl. repeat constructor; simpl; intuition discriminate.
Qed.

(** X15. Whatever the location, the menus highlight at most one item, and
    exactly one when the location is the path of an item; the desktop and
    the mobile menu highlight the same item. *)
Theorem one_active_item (pathname : string) :
  List.length (filter (Navbar.isActive pathname) Navbar.navItems) <= 1
  /\ (List.length (filter (Navbar.isActive pathname) Navbar.navItems) = 1
      <-> In pathname (map Navbar.path Navbar.navItems))
  /\ Forall (fun item =>
               (Navbar.desktopClass pathname item = "text-primary bg-primary/10"
                <-> pathname = Navbar.path item)
               /\ (Navbar.mobileClass pathname item = "text-primary bg-primary/10"
                   <-> pathname = Navbar.path item))
            Navbar.navItems.
Proof.
  rewrite (active_count pathname _ navItems_paths_differ).
  split; [|split].
  - destruct (existsb _ _); lia.
  - destruct (existsb (Navbar.isActive pathname) Navbar.navItems) eqn:E.
    + split; [intros _|reflexivity].
      apply existsb_exists in E. destruct E as (x & Hx & Ex).
      apply String.eqb_eq in Ex. subst pathname. now apply in_map.
    + split; [discriminate|]. intros H. exfalso.
      apply in_map_iff in H. destruct H as (x & Hp & Hx).
      assert (existsb (Navbar.isActive pathname) Navbar.navItems = true).
      { apply existsb_exists. exists x. split; [exact Hx|].
        unfold Navbar.isActive. rewrite Hp. apply String.eqb_refl. }
      congruence.
  - apply Forall_forall. intros item _.
    unfold Navbar.desktopClass, Navbar.mobileClass, Navbar.isActive.
    destruct (String.eqb_spec pathname (Navbar.path item)) as [->|Hne];
      split; split; intros H; try reflexivity; try discriminate; contradiction.
Qed.

(** *** The Dashboard cards *)

(** X16. The change figure of a card is green or red by its direction: for
    "Validation Failures" green means falling, for every other label green
    means rising, except that "Avg Processing Time" is green whichever way
    it moves. *)
Theorem change_color_by_direction (lbl v ch : string) (up : bool) :
  let m := Dashboard.mkMetric lbl v ch up in
  (Dashboard.changeColor m = "text-success"
   \/ Dashboard.changeColor m = "text-destructive")
  /\ if lbl =? "Avg Processing Time"
     then Dashboard.changeColor m = "text-success"
     else if lbl =? "Validation Failures"
          then (Dashboard.changeColor m = "text-success" <-> up = false)
          else (Dashboard.changeColor m = "text-success" <-> up = true).
Proof.
  intros m. unfold Dashboard.changeColor. simpl.
  destruct (lbl =? "Avg Processing Time") eqn:Ea.
  - apply String.eqb_eq in Ea. subst lbl. simpl. destruct up; simpl; auto.
  - destruct (lbl =? "Validation Failures"); destruct up; simpl;
      (split; [auto|]); split; intros H; try reflexivity; discriminate.
Qed.

(** *** Arrows between items *)

Lemma mapi_from_fst {A} (n k : nat) (l : list A) :
  map fst (Arrows.mapi_from
             (fun a i => (a, (Z.of_nat i <? Z.of_nat n - 1)%Z)) k l) = l.
Proof.
  revert k. induction l as [|a l IH]; intros k; simpl; [reflexivity|].
  now rewrite IH.
Qed.

Lemma mapi_from_snd {A} (n k : nat) (l : list A) :
  k + List.length l = n ->
  map snd (Arrows.mapi_from
             (fun a i => (a, (Z.of_nat i <? Z.of_nat n - 1)%Z)) k l)
  = (repeat true (List.length l - 1)
     ++ match l with [] => [] | _ => [false] end)%list.
Proof.
  revert k. induction l as [|a l IH]; intros k Hn; simpl; [reflexivity|].
  rewrite (IH (S k)) by (simpl in Hn; lia).
  destruct l as [|b l]; simpl in *.
  - destruct (Z.ltb_spec (Z.of_nat k) (Z.of_nat n - 1)); [lia|reflexivity].
  - destruct (Z.ltb_spec (Z.of_nat k) (Z.of_nat n - 1)); [|lia].
    rewrite Nat.sub_0_r. reflexivity.
Qed.

(** X17. A list rendered with arrows shows its items in order with an
    arrow after each item but the last: [n - 1] arrows for [n] items, and
    none for an empty list or a single item. *)
Theorem arrows_between_items {A} (l : list A) :
  map fst (Arrows.withArrows l) = l
  /\ map snd (Arrows.withArrows l)
     = (repeat true (List.length l - 1)
        ++ match l with [] => [] | _ => [false] end)%list
  /\ List.length (filter snd (Arrows.withArrows l)) = List.length l - 1.
Proof.
  unfold Arrows.withArrows.
  pose proof (mapi_from_fst (List.length l) 0 l) as Hf.
  pose proof (mapi_from_snd (List.length l) 0 l eq_refl) as Hs.
  split; [exact Hf|]. split; [exact Hs|].
  set (r := Arrows.mapi_from _ 0 l) in *.
  assert (Hc : forall (r : list (A * bool)),
             List.length (filter snd r)
             = List.length (filter (fun b => b) (map snd r))).
  { induction r0 as [|[a b] r0 IH]; simpl; [reflexivity|].
    destruct b; simpl; now rewrite IH. }
  rewrite Hc, Hs, filter_app.
  assert (Ht : forall n, filter (fun b : bool => b) (repeat true n) = repeat true n).
  { induction n; simpl; [reflexivity|now rewrite IHn]. }
  rewrite Ht, length_app, repeat_length.
  destruct l; simpl; lia.
Qed.

End PagesMore.
